(** * Symptom-checker chatbot: a shallow embedding of [backend/chatbot.py]

    The development follows the class [SymptomCheckerBot]: the text
    primitives the methods rely on ([str.lower], [in], [str.strip],
    [re.split], [re.search]), the case state and its per-turn merge, the
    case summary, the red-flag check, the cause ranker, the response
    composer and the per-turn entry point [get_response].

    Text is modelled as [string] (a sequence of 8-bit characters).  Case
    mapping and the character classes are the ASCII ones, which is the
    alphabet of every keyword table and pattern of the source; literals of
    the source that hold other characters (the bullet of the templated
    lists) are kept as their UTF-8 bytes and are only ever concatenated.

    Python's [str.lower()], [\b], [\w], [\d], [\s] and [str.split()] are
    Unicode-aware.  On a text of ASCII characters ([isascii]) they are the
    functions of [Text] and [Regex]; on other texts they know more letters,
    digits and blanks, and [str.lower()] yields the ASCII letters i and k
    from two characters outside ASCII.  The scope vocabulary and the groups
    of direct questions are matched by [in] on the lowered message and hold
    neither a k nor a final i, so that both readings agree on them for every
    message.  The regular expressions (the greeting test, the onset and the
    duration) and [str.split()] are read through the classes: what is proved
    of them is stated of ASCII text, or, for the turn, with the verdict of
    the greeting test as a parameter ([get_response_with]). *)

From Stdlib Require Import Ascii.
From stdpp Require Import base decidable option list sorting gmap strings.

#[local] Set Warnings "-clear-no-such-hyp".

(** ** Text primitives *)

Module Text.

(** The line feed ["\n"]. *)
Definition nl : string := String "010"%char "".

Definition is_upper (c : ascii) : bool :=
  let n := nat_of_ascii c in (65 <=? n)%nat && (n <=? 90)%nat.

Definition is_lower (c : ascii) : bool :=
  let n := nat_of_ascii c in (97 <=? n)%nat && (n <=? 122)%nat.

(** [\d]: the decimal digits. *)
Definition is_digit (c : ascii) : bool :=
  let n := nat_of_ascii c in (48 <=? n)%nat && (n <=? 57)%nat.

(** [\s] and the characters removed by [str.strip()]: tab, line feed,
    vertical tab, form feed, carriage return, the four separators
    0x1c-0x1f and the space. *)
Definition is_space (c : ascii) : bool :=
  let n := nat_of_ascii c in
  ((9 <=? n)%nat && (n <=? 13)%nat) || ((28 <=? n)%nat && (n <=? 32)%nat).

(** [\w]: letters, digits and the underscore. *)
Definition is_word (c : ascii) : bool :=
  is_upper c || is_lower c || is_digit c || (nat_of_ascii c =? 95)%nat.

Definition lower_char (c : ascii) : ascii :=
  if is_upper c then ascii_of_nat (nat_of_ascii c + 32) else c.

(** [s.lower()] *)
Fixpoint lower (s : string) : string :=
  match s with
  | EmptyString => EmptyString
  | String c s' => String (lower_char c) (lower s')
  end.

(** [hay.startswith(needle)] *)
Fixpoint starts_with (needle hay : string) : bool :=
  match needle, hay with
  | EmptyString, _ => true
  | String _ _, EmptyString => false
  | String a n', String b h' => bool_decide (a = b) && starts_with n' h'
  end.

(** [needle in hay] *)
Fixpoint contains (needle hay : string) : bool :=
  starts_with needle hay ||
  match hay with
  | EmptyString => false
  | String _ h' => contains needle h'
  end.

(** [any(w in text for w in words)] *)
Definition any_in (words : list string) (text : string) : bool :=
  existsb (fun w => contains w text) words.

Fixpoint lstrip (s : string) : string :=
  match s with
  | EmptyString => EmptyString
  | String c s' => if is_space c then lstrip s' else s
  end.

(** Drops trailing blanks: a blank is kept only when something that is
    kept follows it. *)
Fixpoint rstrip (s : string) : string :=
  match s with
  | EmptyString => EmptyString
  | String c s' =>
      match rstrip s' with
      | EmptyString => if is_space c then EmptyString else String c EmptyString
      | r => String c r
      end
  end.

(** [s.strip()] *)
Definition strip (s : string) : string := rstrip (lstrip s).

(** [re.split(r'[,:;]', s)]: the pieces between separator characters,
    empty pieces included. *)
Definition is_sep (c : ascii) : bool :=
  bool_decide (c = ","%char) || bool_decide (c = ":"%char) || bool_decide (c = ";"%char).

Fixpoint split_seps (s : string) : list string :=
  match s with
  | EmptyString => [EmptyString]
  | String c s' =>
      if is_sep c then EmptyString :: split_seps s'
      else match split_seps s' with
           | [] => [String c EmptyString]
           | p :: ps => String c p :: ps
           end
  end.

(** [sep.join(parts)] *)
Definition join (sep : string) (parts : list string) : string :=
  String.concat sep parts.

(** Truth value of a string: the empty string is false. *)
Definition nonempty (s : string) : bool :=
  match s with EmptyString => false | String _ _ => true end.

End Text.

(** ** Regular expressions

    The four greeting patterns and the three fact patterns of the source
    use literals, [\d], [\s], [\b], grouping with alternation and the
    greedy [+] and [*].  [matches r p] lists the positions at which a match
    of [r] started at [p] can end, in the order in which a backtracking
    matcher tries them: the head of the list is the match [re] reports. *)

Module Regex.
Import Text.

Inductive regex : Type :=
| Lit (s : string)
| Digit
| Space
| Bound
| Seq (r1 r2 : regex)
| Alt (r1 r2 : regex)
| Star (r : regex).

Definition Plus (r : regex) : regex := Seq r (Star r).

(** A position in the subject: the character before it, if any, and what
    is left to read. *)
Record pos : Type := Pos { prev : option ascii; rest : string }.

Definition word_before (p : pos) : bool :=
  match prev p with Some c => is_word c | None => false end.

Definition word_after (p : pos) : bool :=
  match rest p with String c _ => is_word c | EmptyString => false end.

(** [\b]: exactly one side of the position is a word character. *)
Definition at_boundary (p : pos) : bool := xorb (word_before p) (word_after p).

Fixpoint eat (lit : string) (p : pos) : option pos :=
  match lit with
  | EmptyString => Some p
  | String a lit' =>
      match rest p with
      | String b s' => if bool_decide (a = b) then eat lit' (Pos (Some b) s') else None
      | EmptyString => None
      end
  end.

Definition eat_class (f : ascii → bool) (p : pos) : list pos :=
  match rest p with
  | String c s' => if f c then [Pos (Some c) s'] else []
  | EmptyString => []
  end.

(** Greedy repetition of [step]: one more round first, stopping here
    last.  A round that reads nothing is not repeated; [fuel] bounds the
    number of rounds by the length of what is left. *)
Fixpoint star_iter (step : pos → list pos) (fuel : nat) (p : pos) : list pos :=
  match fuel with
  | O => [p]
  | S fuel' =>
      (q ← step p;
       if (String.length (rest q) <? String.length (rest p))%nat
       then star_iter step fuel' q else [])
      ++ [p]
  end.

Fixpoint matches (r : regex) (p : pos) : list pos :=
  match r with
  | Lit s => match eat s p with Some q => [q] | None => [] end
  | Digit => eat_class is_digit p
  | Space => eat_class is_space p
  | Bound => if at_boundary p then [p] else []
  | Seq r1 r2 => q ← matches r1 p; matches r2 q
  | Alt r1 r2 => matches r1 p ++ matches r2 p
  | Star r1 => star_iter (matches r1) (String.length (rest p)) p
  end.

(** The match found at a given position: the text it covers. *)
Definition match_here (r : regex) (p : pos) : option string :=
  match matches r p with
  | q :: _ =>
      Some (String.substring 0 (String.length (rest p) - String.length (rest q)) (rest p))
  | [] => None
  end.

Fixpoint search_from (r : regex) (before : option ascii) (s : string) : option string :=
  match match_here r (Pos before s) with
  | Some m => Some m
  | None =>
      match s with
      | EmptyString => None
      | String c s' => search_from r (Some c) s'
      end
  end.

(** [re.search(r, s)], as [m.group(0)] of the leftmost match. *)
Definition search (r : regex) (s : string) : option string := search_from r None s.

(** [bool(re.search(r, s))] *)
Definition found (r : regex) (s : string) : bool := bool_decide (is_Some (search r s)).

Definition alts (rs : list regex) : regex :=
  match rs with
  | [] => Lit ""
  | r :: rs' => foldl Alt r rs'
  end.

End Regex.

Import Text Regex.


(** ** The case state

    [current_case] and the [facts] dictionary have the same five keys.  A
    scalar is [None] or a string; the symptoms are a Python [set]. *)

Record CaseState : Type := mkCase {
  onset : option string;
  location : option string;
  severity : option string;
  associated_symptoms : gset string;
  duration : option string
}.

(** The dictionary built by [__init__] and at the head of
    [_extract_structured_facts]. *)
Definition empty_case : CaseState :=
  {| onset := None; location := None; severity := None;
     associated_symptoms := ∅; duration := None |}.

(** Truth value of [d.get(key)] for a scalar: [None] and [''] are false. *)
Definition truthy (v : option string) : bool :=
  match v with Some s => nonempty s | None => false end.

(** *** Fact extraction

    The three patterns are searched in [message.lower()].  [Space], [Digit]
    and [Bound] are the ASCII classes: on a message of ASCII characters the
    search is that of [re]. *)

Definition seqs (rs : list regex) : regex := foldr Seq (Lit "") rs.

(** [\b(today|this\s+morning|this\s+evening|now|just|since)\b] *)
Definition onset_today_re : regex :=
  seqs [Bound;
        alts [Lit "today";
              seqs [Lit "this"; Plus Space; Lit "morning"];
              seqs [Lit "this"; Plus Space; Lit "evening"];
              Lit "now"; Lit "just"; Lit "since"];
        Bound].

(** [\b(yesterday|last\s+night)\b] *)
Definition onset_yesterday_re : regex :=
  seqs [Bound;
        alts [Lit "yesterday"; seqs [Lit "last"; Plus Space; Lit "night"]];
        Bound].

(** [\b(\d+|one|two|three|four|five)\s*(hour|hours|day|days)\b] *)
Definition duration_re : regex :=
  seqs [Bound;
        alts [Plus Digit; Lit "one"; Lit "two"; Lit "three"; Lit "four"; Lit "five"];
        Star Space;
        alts [Lit "hour"; Lit "hours"; Lit "day"; Lit "days"];
        Bound].

Definition location_map : list (string * list string) :=
  [ ("upper right", ["upper right"; "right upper"; "ruq"]);
    ("upper left", ["upper left"; "left upper"; "luq"]);
    ("lower right", ["lower right"; "right lower"; "rlq"]);
    ("lower left", ["lower left"; "left lower"; "llq"]);
    ("upper abdomen", ["upper abdomen"; "upper stomach"]);
    ("lower abdomen", ["lower abdomen"; "lower stomach"]);
    ("whole abdomen", ["whole abdomen"; "entire abdomen"; "all over"; "whole stomach"]) ].

(** The [for ... break] loop over [location_map]. *)
Fixpoint extract_location (m : list (string * list string)) (text : string) : option string :=
  match m with
  | [] => None
  | (loc_label, patterns) :: m' =>
      if any_in patterns text then Some loc_label else extract_location m' text
  end.

(** The [if / elif / elif] chain on the severity words. *)
Definition extract_severity (text : string) : option string :=
  if contains "mild" text then Some "mild"
  else if contains "moderate" text then Some "moderate"
  else if contains "severe" text || contains "worst" text then Some "severe"
  else None.

Definition assoc_terms : list string :=
  ["nausea"; "vomiting"; "diarrhea"; "constipation"; "fever"; "bloating";
   "heartburn"; "gas"; "loss of appetite"; "back pain"; "shoulder pain"].

Definition extract_symptoms (text : string) : gset string :=
  let found_terms : gset string :=
    foldl (fun acc term => if contains term text then acc ∪ {[ term ]} else acc)
          ∅ assoc_terms in
  if contains "vomit" text && negb (bool_decide ("vomiting" ∈ found_terms))
  then found_terms ∪ {[ "vomiting" ]}
  else found_terms.

Definition _extract_structured_facts (message : string) : CaseState :=
  let text := lower message in
  let onset1 := if found onset_today_re text then Some "today" else None in
  let onset2 := if found onset_yesterday_re text then Some "yesterday" else onset1 in
  {| onset := onset2;
     location := extract_location location_map text;
     severity := extract_severity text;
     associated_symptoms := extract_symptoms text;
     duration := search duration_re text |}.

(** *** The per-turn merge *)

Definition _update_case_state (facts : CaseState) (case : CaseState) : CaseState :=
  {| onset := if truthy (onset facts) then onset facts else onset case;
     location := if truthy (location facts) then location facts else location case;
     severity := if truthy (severity facts) then severity facts else severity case;
     duration := if truthy (duration facts) then duration facts else duration case;
     associated_symptoms :=
       if bool_decide (associated_symptoms facts ≠ ∅)
       then associated_symptoms case ∪ associated_symptoms facts
       else associated_symptoms case |}.

(** *** The case summary *)

(** [sorted(s)] for a set of strings: ascending in the order of [str]. *)
Definition sorted (s : gset string) : list string :=
  merge_sort String.le (elements s).

(** The value a truthy field contributes to an f-string. *)
Definition field_text (v : option string) : string := default "" v.

Definition summary_parts (case : CaseState) : list string :=
  (if truthy (onset case) then ["onset " +:+ field_text (onset case)] else []) ++
  (if truthy (duration case) then ["duration " +:+ field_text (duration case)] else []) ++
  (if truthy (location case) then ["location " +:+ field_text (location case)] else []) ++
  (if truthy (severity case) then ["severity " +:+ field_text (severity case)] else []) ++
  (if bool_decide (associated_symptoms case ≠ ∅)
   then ["symptoms " +:+ join ", " (sorted (associated_symptoms case))] else []).

Definition _case_summary_text (case : CaseState) : string :=
  match summary_parts case with
  | [] => "abdominal pain"
  | parts => join "; " parts
  end.


(** ** The knowledge documents

    [medical_data] as [_load_medical_data] returns it.  A key read with
    [.get(key, [])] is a list (empty when the key is absent); a key read
    with [.get(key)] is an [option]. *)

Record Cause : Type := mkCause {
  condition : option string;
  description : option string;
  symptoms : list string
}.

Record Remedy : Type := mkRemedy {
  remedy : option string;
  remedy_description : option string
}.

Record MedicalData : Type := mkMedicalData {
  causes : list Cause;
  emergency_symptoms : list string;
  home_remedies : list Remedy
}.

(** The fallback structure of [_load_medical_data]. *)
Definition fallback_medical_data : MedicalData :=
  {| causes := []; emergency_symptoms := []; home_remedies := [] |}.

(** [str(v)] inside an f-string for the result of [d.get(key)]. *)
Definition fmt (v : option string) : string := default "None" v.

(** ** Red flags *)

(** [list(dict.fromkeys(l))]: duplicates removed, first occurrences kept
    in their order. *)
Fixpoint fromkeys (l : list string) : list string :=
  match l with
  | [] => []
  | x :: l' => x :: filter (fun y => y ≠ x) (fromkeys l')
  end.

(** The test of one emergency phrase against the lowered summary. *)
Definition emergency_hit (text item : string) : bool :=
  existsb (fun term => nonempty term && contains term text)
          (map strip (split_seps item)).

Definition explicit_flags (case : CaseState) (text : string) : list string :=
  (if bool_decide (severity case = Some "severe") then ["Severe abdominal pain"] else []) ++
  (if bool_decide ("fever" ∈ associated_symptoms case) then ["Pain with fever"] else []) ++
  (if bool_decide ("vomiting" ∈ associated_symptoms case) && contains "blood" text
   then ["Vomiting blood"] else []).

Definition _red_flag_check (data : MedicalData) (case : CaseState) : list string :=
  let emergencies := map lower (emergency_symptoms data) in
  let text := lower (_case_summary_text case) in
  let flags := List.filter (emergency_hit text) emergencies ++ explicit_flags case text in
  fromkeys flags.

(** ** The bot and its effects *)

(** One entry of [conversation_history]. *)
Record Turn : Type := mkTurn {
  user : string;
  timestamp : option string;
  bot : option string
}.

(** The fields of [self] that [get_response] reads or writes, and one
    ghost field: [encode_calls] records, oldest first, every batch handed
    to [self.model.encode]. *)
Record Bot : Type := mkBot {
  medical_data : MedicalData;
  conversation_history : list Turn;
  session_in_scope : bool;
  current_case : CaseState;
  encode_calls : list (list string)
}.

(** The state built by [__init__]. *)
Definition new_bot (data : MedicalData) : Bot :=
  {| medical_data := data; conversation_history := []; session_in_scope := false;
     current_case := empty_case; encode_calls := [] |}.

Definition set_history (h : list Turn) (self : Bot) : Bot :=
  {| medical_data := medical_data self; conversation_history := h;
     session_in_scope := session_in_scope self; current_case := current_case self;
     encode_calls := encode_calls self |}.

Definition set_in_scope (b : bool) (self : Bot) : Bot :=
  {| medical_data := medical_data self; conversation_history := conversation_history self;
     session_in_scope := b; current_case := current_case self;
     encode_calls := encode_calls self |}.

Definition set_case (c : CaseState) (self : Bot) : Bot :=
  {| medical_data := medical_data self; conversation_history := conversation_history self;
     session_in_scope := session_in_scope self; current_case := c;
     encode_calls := encode_calls self |}.

Definition log_encode (batch : list string) (self : Bot) : Bot :=
  {| medical_data := medical_data self; conversation_history := conversation_history self;
     session_in_scope := session_in_scope self; current_case := current_case self;
     encode_calls := encode_calls self ++ [batch] |}.

(** A method either returns or raises; in both cases the writes made to
    [self] so far stay. *)
Inductive exn : Type := EmbeddingProviderError.

Inductive outcome (A : Type) : Type :=
| Returned (a : A)
| Raised (e : exn).
Arguments Returned {A} a.
Arguments Raised {A} e.

Definition M (A : Type) : Type := Bot → outcome A * Bot.

Definition ret {A} (a : A) : M A := fun self => (Returned a, self).

Definition bind {A B} (k : A → M B) (c : M A) : M B :=
  fun self =>
    match c self with
    | (Returned a, self') => k a self'
    | (Raised e, self') => (Raised e, self')
    end.

#[global] Instance M_ret : MRet M := @ret.
#[global] Instance M_bind : MBind M := @bind.

Definition raise {A} (e : exn) : M A := fun self => (Raised e, self).
Definition get_self : M Bot := fun self => (Returned self, self).
Definition modify (f : Bot → Bot) : M unit := fun self => (Returned tt, f self).

(** ** Static replies *)

Definition greeting_patterns : list regex :=
  [ seqs [Bound;
          alts [Lit "hi"; Lit "hello"; Lit "hey"; Lit "good morning";
                Lit "good afternoon"; Lit "good evening"];
          Bound];
    seqs [Bound; Lit "how are you"; Bound];
    seqs [Bound; Lit "what's up"; Bound];
    seqs [Bound; Lit "how's it going"; Bound] ].

(** The four patterns searched in [message.lower()], with the ASCII
    word boundary and case mapping: the verdict of the source on a message of
    ASCII characters. *)
Definition _is_greeting (message : string) : bool :=
  let message_lower := lower message in
  existsb (fun pattern => found pattern message_lower) greeting_patterns.

Definition greetings : list string :=
  [ "Hello! I'm your symptom checker assistant. I'm here to help you understand abdominal pain and related symptoms. How can I assist you today?";
    "Hi there! I'm a medical AI assistant specializing in abdominal pain. I can help answer your questions about symptoms, causes, and when to seek medical attention. What would you like to know?";
    "Hello! I'm here to help you with questions about abdominal pain in adults. I can provide information about causes, symptoms, and treatment options. How may I help you?" ].

(** [np.random.choice(greetings)]; [pick] is the index drawn. *)
Definition _get_greeting_response (pick : nat) : string :=
  nth (pick mod 3) greetings "".

Definition responses_causes : list string :=
  [ "Abdominal pain in adults can be caused by various factors including:";
    "• Indigestion or heartburn";
    "• Food poisoning";
    "• Stomach flu (gastroenteritis)";
    "• Irritable bowel syndrome (IBS)";
    "• Constipation";
    "• Gas and bloating";
    "• Appendicitis";
    "• Gallstones";
    "• Kidney stones";
    "• Ulcers";
    "• Inflammatory bowel disease (IBD)" ].

Definition responses_symptoms : list string :=
  [ "Common symptoms associated with abdominal pain include:";
    "• Cramping or sharp pain";
    "• Nausea and vomiting";
    "• Loss of appetite";
    "• Fever";
    "• Diarrhea or constipation";
    "• Bloating";
    "• Heartburn";
    "• Pain that radiates to other areas" ].

Definition responses_when_to_seek_help : list string :=
  [ "Seek immediate medical attention if you experience:";
    "• Severe, sudden abdominal pain";
    "• Pain with fever";
    "• Pain with vomiting blood";
    "• Pain with black, tarry stools";
    "• Pain that lasts more than 24 hours";
    "• Pain that gets worse over time";
    "• Pain with difficulty breathing";
    "• Pain with chest pressure" ].

Definition responses_home_remedies : list string :=
  [ "For mild abdominal pain, you can try:";
    "• Rest and avoid strenuous activity";
    "• Apply a heating pad to the area";
    "• Drink clear fluids (water, broth)";
    "• Eat bland foods (rice, toast, bananas)";
    "• Avoid spicy, fatty, or acidic foods";
    "• Take over-the-counter pain relievers if appropriate";
    "• Practice relaxation techniques" ].

Definition refusal : string :=
  "I apologize, but I'm specifically trained to help with abdominal pain in adults. " +:+
  "I can provide information about causes, symptoms, when to seek medical attention, " +:+
  "and home remedies related to abdominal pain. Please ask me about abdominal pain or related symptoms.".

(** The four keyword groups of [_get_abdominal_pain_response], in the
    order of its [if / elif] chain, each with the list it answers with. *)
Definition cause_words : list string := ["cause"; "causes"; "why"; "reason"].
Definition symptom_words : list string := ["symptom"; "symptoms"; "sign"; "signs"].
Definition emergency_words : list string :=
  ["emergency"; "urgent"; "hospital"; "doctor"; "medical attention"].
Definition home_words : list string := ["home"; "remedy"; "treatment"; "cure"; "help"].

Definition direct_groups : list (list string * list string) :=
  [ (cause_words, responses_causes);
    (symptom_words, responses_symptoms);
    (emergency_words, responses_when_to_seek_help);
    (home_words, responses_home_remedies) ].

Fixpoint direct_lookup (groups : list (list string * list string)) (message_lower : string)
  : option string :=
  match groups with
  | [] => None
  | (words, reply) :: groups' =>
      if any_in words message_lower then Some (join nl reply)
      else direct_lookup groups' message_lower
  end.

Definition abdominal_keywords : list string :=
  ["abdominal"; "stomach"; "belly"; "gut"; "pain"; "ache"; "cramp";
   "indigestion"; "heartburn"; "nausea"; "vomiting"; "diarrhea";
   "constipation"; "bloating"; "gas"; "appendicitis"; "ulcer"].

Definition scope_keywords : list string :=
  ["abdominal"; "stomach"; "belly"; "gut"; "pain"].

Definition has_abdominal_keywords (message : string) : bool :=
  any_in abdominal_keywords (lower message).

Definition _is_out_of_scope (message : string) (self : Bot) : bool :=
  negb (has_abdominal_keywords message || session_in_scope self || _is_greeting message).

(** ** Ranking, composition and the turn

    The sentence encoder and the similarity routine are external.  The
    encoder [self.model.encode] is an oracle: given the number of calls made
    before and a batch of texts it returns one vector per text, or fails
    ([None]: the call raises).  [similarity_row q vs] stands for
    [cosine_similarity(q, vs)[0]], and [score_lt] for [<] on scores. *)

Section Provider.

Variable vector : Type.
Variable score : Type.
Variable encode : nat → list string → option (list vector).
Variable similarity_row : list vector → list vector → list score.
Variable score_lt : score → score → bool.

(** [self.model.encode(batch)] *)
Definition model_encode (batch : list string) : M (list vector) :=
  fun self =>
    let self' := log_encode batch self in
    match encode (length (encode_calls self)) batch with
    | Some vs => (Returned vs, self')
    | None => (Raised EmbeddingProviderError, self')
    end.

(** [sorted(pairs, key=lambda x: x[1], reverse=True)]: descending by
    score, pairs of equal score in their original order. *)
Fixpoint insert_desc (x : Cause * score) (l : list (Cause * score)) : list (Cause * score) :=
  match l with
  | [] => [x]
  | y :: l' => if score_lt (snd x) (snd y) then y :: insert_desc x l' else x :: y :: l'
  end.

Definition sorted_desc (l : list (Cause * score)) : list (Cause * score) :=
  foldr insert_desc [] l.

(** The text built for one cause. *)
Definition cause_text (c : Cause) : string :=
  default "" (condition c) +:+ ". " +:+ default "" (description c) +:+
  ". Symptoms: " +:+ join ", " (symptoms c).

Definition _rank_causes : M (list (Cause * score)) :=
  self ← get_self;
  let causes := causes (medical_data self) in
  match causes with
  | [] => ret []
  | _ :: _ =>
      let case_text := _case_summary_text (current_case self) in
      let cause_texts := map cause_text causes in
      case_vec ← model_encode [case_text];
      cause_vecs ← model_encode cause_texts;
      let sims := similarity_row case_vec cause_vecs in
      let ranked := sorted_desc (zip causes sims) in
      ret (take 3 ranked)
  end.

Definition need_more_detail : string :=
  "• I need a bit more detail (location, severity, associated symptoms) to narrow causes.".

Definition cause_lines (ranked : list (Cause * score)) : list string :=
  match ranked with
  | [] => [need_more_detail]
  | _ :: _ =>
      map (fun '(cause, _) => "• " +:+ fmt (condition cause) +:+ ": " +:+ fmt (description cause))
          ranked
  end.

Definition care_lines (data : MedicalData) (red_flags : list string) : list string :=
  match red_flags with
  | _ :: _ =>
      (nl +:+ "Based on red-flag symptoms, I recommend urgent medical attention:")
      :: map (fun f => "• " +:+ f) (take 5 red_flags)
  | [] =>
      match home_remedies data with
      | [] => []
      | remedies =>
          (nl +:+ "Self‑care that may help for mild symptoms:")
          :: map (fun r => "• " +:+ fmt (remedy r) +:+ ": " +:+ fmt (remedy_description r))
                 (take 4 remedies)
      end
  end.

Definition follow_up_lines (case : CaseState) : list string :=
  let need :=
    (if truthy (location case) then [] else ["where exactly the pain is located"]) ++
    (if truthy (severity case) then [] else ["how severe it feels (mild, moderate, severe)"]) ++
    (if negb (truthy (onset case)) && negb (truthy (duration case))
     then ["when it started and for how long"] else []) in
  match need with
  | [] => []
  | _ :: _ => [nl +:+ "To improve accuracy, please tell me " +:+ join ", " need +:+ "."]
  end.

Definition header_line (summary : string) : string :=
  "Thanks for the details. From what you've shared (" +:+ summary +:+
  "), here are the most likely possibilities based on my training data:".

Definition footer_line : string :=
  nl +:+ "Note: I share general information about abdominal pain in adults and don’t replace a clinician.".

(** The reply assembled from what the three helpers returned. *)
Definition compose (data : MedicalData) (case : CaseState)
    (red_flags : list string) (ranked : list (Cause * score)) : string :=
  join nl ([header_line (_case_summary_text case)] ++ cause_lines ranked ++
           care_lines data red_flags ++ follow_up_lines case ++ [footer_line]).

Definition _build_analysis_response : M string :=
  self ← get_self;
  let red_flags := _red_flag_check (medical_data self) (current_case self) in
  ranked ← _rank_causes;
  ret (compose (medical_data self) (current_case self) red_flags ranked).

Definition _get_abdominal_pain_response (message : string) : M string :=
  let message_lower := lower message in
  match direct_lookup direct_groups message_lower with
  | Some reply => ret reply
  | None =>
      let facts := _extract_structured_facts message in
      modify (fun self => set_case (_update_case_state facts (current_case self)) self);;
      _build_analysis_response
  end.

(** [self.conversation_history[-1]['bot'] = response] *)
Definition set_last_bot (response : string) (h : list Turn) : list Turn :=
  match reverse h with
  | [] => []
  | t :: before =>
      reverse before ++ [{| user := user t; timestamp := timestamp t; bot := Some response |}]
  end.

Definition record_reply (response : string) : M string :=
  modify (fun self => set_history (set_last_bot response (conversation_history self)) self);;
  ret response.

Definition get_response (pick : nat) (message : string) : M string :=
  modify (fun self =>
    set_history (conversation_history self ++
                 [{| user := message; timestamp := None; bot := None |}]) self);;
  if _is_greeting message then
    record_reply (_get_greeting_response pick)
  else
    modify (fun self =>
      if negb (session_in_scope self) && any_in scope_keywords (lower message)
      then set_in_scope true self else self);;
    self ← get_self;
    if _is_out_of_scope message self then
      record_reply refusal
    else
      modify (set_in_scope true);;
      response ← _get_abdominal_pain_response message;
      record_reply response.

(** A conversation: the turns in order, each with the index its greeting
    would draw.  A turn that raises leaves its writes in place and the
    next turn starts from them, as the HTTP handler does it. *)
Fixpoint run (turns : list (nat * string)) (self : Bot) : Bot :=
  match turns with
  | [] => self
  | (pick, message) :: turns' => run turns' (snd (get_response pick message self))
  end.

End Provider.

(** ** The turn, for any greeting test

    [self._is_greeting] decides with [re.search] on [message.lower()]: the
    word boundary of [re] and the case mapping of [str] are those of
    Unicode, and [_is_greeting] above gives their verdict on a message of
    ASCII characters.  The two methods that call the test are stated here
    with its verdict as a parameter, so that what is proved of them holds of
    every message; [_is_out_of_scope] and [get_response] are their instances
    at [_is_greeting]. *)

Section Greeting.

Variable vector : Type.
Variable score : Type.
Variable encode : nat → list string → option (list vector).
Variable similarity_row : list vector → list vector → list score.
Variable score_lt : score → score → bool.
Variable is_greeting : string → bool.

Definition _is_out_of_scope_with (message : string) (self : Bot) : bool :=
  negb (has_abdominal_keywords message || session_in_scope self || is_greeting message).

Definition get_response_with (pick : nat) (message : string) : M string :=
  modify (fun self =>
    set_history (conversation_history self ++
                 [{| user := message; timestamp := None; bot := None |}]) self);;
  if is_greeting message then
    record_reply (_get_greeting_response pick)
  else
    modify (fun self =>
      if negb (session_in_scope self) && any_in scope_keywords (lower message)
      then set_in_scope true self else self);;
    self ← get_self;
    if _is_out_of_scope_with message self then
      record_reply refusal
    else
      modify (set_in_scope true);;
      response ← _get_abdominal_pain_response vector score encode similarity_row score_lt
                   message;
      record_reply response.

End Greeting.

(** ** Specification vocabulary and sample data *)

(** A scalar that held a value still holds one; it is stated both for
    "is not [None]" and for "is truthy". *)
Definition scalar_kept (before after : option string) : Prop :=
  (is_Some before → is_Some after) ∧ (truthy before = true → truthy after = true).

(** [case_kept c c']: nothing recorded in [c] is missing from [c']. *)
Definition case_kept (c c' : CaseState) : Prop :=
  scalar_kept (onset c) (onset c') ∧
  scalar_kept (duration c) (duration c') ∧
  scalar_kept (location c) (location c') ∧
  scalar_kept (severity c) (severity c') ∧
  associated_symptoms c ⊆ associated_symptoms c'.

(** What the merge does to one scalar: it leaves it, or it writes the
    truthy value the facts hold. *)
Definition scalar_merged (fact before after : option string) : Prop :=
  after = before ∨ (truthy fact = true ∧ after = fact).

Definition case_severe_fever : CaseState :=
  {| onset := None; location := None; severity := Some "severe";
     associated_symptoms := {[ "fever" ]}; duration := None |}.

Definition case_three : CaseState :=
  {| onset := None; location := None; severity := None;
     associated_symptoms := {[ "nausea"; "vomiting"; "fever" ]}; duration := None |}.

(** The history once the user's message is appended, and once the reply is
    written into that last entry. *)
Definition open_turn (message : string) (self : Bot) : Bot :=
  set_history (conversation_history self ++
               [{| user := message; timestamp := None; bot := None |}]) self.

Definition closed_turn (message response : string) (self : Bot) : Bot :=
  set_history (conversation_history self ++
               [{| user := message; timestamp := None; bot := Some response |}]) self.

(** Stub collaborators for the worked examples: an encoder that answers
    every call with one number per text, an encoder that fails every call,
    and a similarity that reads the scores off the cause vectors. *)
Definition stub_encode (n : nat) (batch : list string) : option (list nat) :=
  Some (map String.length batch).

Definition failing_encode (n : nat) (batch : list string) : option (list nat) := None.

Definition stub_similarity (case_vec cause_vecs : list nat) : list nat := cause_vecs.

Definition gastritis : Cause :=
  {| condition := Some "Gastritis";
     description := Some "Inflammation of the stomach lining";
     symptoms := ["upper abdominal pain"; "nausea"] |}.

Definition one_cause_data : MedicalData :=
  {| causes := [gastritis]; emergency_symptoms := ["Pain with fever"]; home_remedies := [] |}.

Definition ten_cause_data : MedicalData :=
  {| causes := replicate 10 gastritis; emergency_symptoms := []; home_remedies := [] |}.

Definition fresh_bot : Bot := new_bot fallback_medical_data.
Definition in_scope_bot : Bot := set_in_scope true fresh_bot.
Definition one_cause_bot : Bot := new_bot one_cause_data.

(** One turn with the stub encoder, and with the failing one. *)
Definition stub_respond (message : string) : M string :=
  get_response nat nat stub_encode stub_similarity Nat.ltb 0 message.

Definition failing_respond (message : string) : M string :=
  get_response nat nat failing_encode stub_similarity Nat.ltb 0 message.

(** ** What a pattern can match, and texts without a double "o"

    [lang r] over-approximates the texts a match of [r] can cover (the
    boundary assertion is left unchecked).  [double_o] finds two adjacent
    letters "o", in either case: the word "blood" has them, and no value
    that the extractor can store has. *)

Fixpoint lang (r : regex) (c : string) : Prop :=
  match r with
  | Lit s => c = s
  | Digit => ∃ a, is_digit a = true ∧ c = String a ""
  | Space => ∃ a, is_space a = true ∧ c = String a ""
  | Bound => c = ""
  | Seq r1 r2 => ∃ c1 c2, c = c1 +:+ c2 ∧ lang r1 c1 ∧ lang r2 c2
  | Alt r1 r2 => lang r1 c ∨ lang r2 c
  | Star r1 => ∃ l, c = foldr String.append "" l ∧ Forall (lang r1) l
  end.

Fixpoint all_chars (f : ascii → bool) (s : string) : bool :=
  match s with
  | EmptyString => true
  | String c s' => f c && all_chars f s'
  end.

(** [s.isascii()]: every character is below 128.  On such a text the
    classes of [Text] and [Regex] are those of Python: [str.lower()] maps
    the letters A-Z only, [\d] is 0-9, [\w] is the ASCII letters, the
    digits and the underscore, and [\s] and the blanks of [str.split()]
    and [str.strip()] are the ten characters of [is_space]; beyond ASCII
    Python knows more digits, blanks, letters and case mappings.  The
    properties that read a message through these classes are stated of
    ASCII messages. *)
Definition isascii (s : string) : bool :=
  all_chars (fun c => (nat_of_ascii c <? 128)%nat) s.

Definition is_o (c : ascii) : bool := bool_decide (lower_char c = "o"%char).

Fixpoint double_o (s : string) : bool :=
  match s with
  | EmptyString => false
  | String a t =>
      match t with
      | EmptyString => false
      | String b _ => (is_o a && is_o b) || double_o t
      end
  end.

Definition starts_o (s : string) : bool :=
  match s with String a _ => is_o a | EmptyString => false end.

Fixpoint ends_o (s : string) : bool :=
  match s with
  | EmptyString => false
  | String a t => match t with EmptyString => is_o a | String _ _ => ends_o t end
  end.

Definition clean (v : option string) : Prop :=
  match v with Some s => double_o s = false | None => True end.

(** The case states a conversation can build. *)
Definition case_clean (c : CaseState) : Prop :=
  clean (onset c) ∧ clean (duration c) ∧ clean (location c) ∧ clean (severity c) ∧
  ∀ x, x ∈ associated_symptoms c → x ∈ assoc_terms.

(** ** The rest of the bot: [fine_tune]

    [knowledge_base] as [_load_knowledge_base] returns it, and one item of
    the training data.  [fine_tune] is modelled up to its loop: the two
    files it then writes hold what the loop built. *)

Module Knowledge.

Record KnowledgeBase : Type := mkKnowledgeBase {
  symptom : string;
  causes : list string;
  symptoms : list string;
  severity_indicators : list string
}.

(** The fallback of [_load_knowledge_base]. *)
Definition fallback_knowledge_base : KnowledgeBase :=
  {| symptom := "abdominal pain in adults";
     causes := ["indigestion"; "heartburn"; "food poisoning"; "stomach flu";
                "gastroenteritis"; "ibs"; "irritable bowel syndrome"; "constipation";
                "gas"; "bloating"; "appendicitis"; "gallstones"; "kidney stones";
                "ulcers"; "inflammatory bowel disease"; "ibd"];
     symptoms := ["cramping"; "sharp pain"; "nausea"; "vomiting"; "loss of appetite";
                  "fever"; "diarrhea"; "constipation"; "bloating"; "heartburn"];
     severity_indicators := ["severe pain"; "sudden pain"; "fever"; "vomiting blood";
                             "black stools"; "difficulty breathing"; "chest pressure"] |}.

End Knowledge.

(** A dictionary with the keys ['question'] and ['answer']. *)
Record TrainingPoint : Type := mkPoint {
  question : string;
  answer : string
}.

#[global] Instance TrainingPoint_eq_dec : EqDecision TrainingPoint.
Proof. solve_decision. Defined.

(** [s.split()]: the maximal runs of characters that are not blank; the
    blanks are those of [is_space], which are the blanks of Python among the
    ASCII characters. *)
Fixpoint split_ws (s : string) : list string :=
  match s with
  | EmptyString => []
  | String c s' =>
      if is_space c then split_ws s'
      else
        match s' with
        | EmptyString => [String c EmptyString]
        | String d _ =>
            if is_space d then String c EmptyString :: split_ws s'
            else match split_ws s' with
                 | w :: ws => String c w :: ws
                 | [] => [String c EmptyString]
                 end
        end
  end.

(** One round of the loop of [fine_tune]. *)
Definition fine_tune_step (kb : Knowledge.KnowledgeBase) (data_point : TrainingPoint)
  : Knowledge.KnowledgeBase :=
  if contains "causes" (lower (question data_point)) then
    {| Knowledge.symptom := Knowledge.symptom kb;
       Knowledge.causes := Knowledge.causes kb ++ split_ws (answer data_point);
       Knowledge.symptoms := Knowledge.symptoms kb;
       Knowledge.severity_indicators := Knowledge.severity_indicators kb |}
  else if contains "symptoms" (lower (question data_point)) then
    {| Knowledge.symptom := Knowledge.symptom kb;
       Knowledge.causes := Knowledge.causes kb;
       Knowledge.symptoms := Knowledge.symptoms kb ++ split_ws (answer data_point);
       Knowledge.severity_indicators := Knowledge.severity_indicators kb |}
  else kb.

Definition fine_tune (training_data : list TrainingPoint) (kb : Knowledge.KnowledgeBase)
  : Knowledge.KnowledgeBase :=
  foldl fine_tune_step kb training_data.

(** ** The HTTP handler of [app.py]

    The body of a request is no JSON value at all ([request.get_json()]
    raises or gives [None]) or an object whose ['message'], when present and
    not [null], is a string.  A reply is the status code and the payload of
    [jsonify]; the text of an error is kept as the error itself. *)

Inductive Body : Type :=
| NoJson
| JsonObject (message : option string).

Inductive Failure : Type :=
| BodyError
| BotError (e : exn).

Inductive Reply : Type :=
| Response (response : string)
| MessageRequired
| InternalError (e : Failure).

Definition status (r : Reply) : nat :=
  match r with
  | Response _ => 200
  | MessageRequired => 400
  | InternalError _ => 500
  end.

Section Handler.

Variable vector : Type.
Variable score : Type.
Variable encode : nat → list string → option (list vector).
Variable similarity_row : list vector → list vector → list score.
Variable score_lt : score → score → bool.

(** [chat()], acting on the one [chatbot] of the process. *)
Definition chat (pick : nat) (body : Body) (chatbot : Bot) : Reply * Bot :=
  match body with
  | NoJson => (InternalError BodyError, chatbot)
  | JsonObject message =>
      let user_message := default "" message in
      if negb (nonempty user_message) then (MessageRequired, chatbot)
      else
        match get_response vector score encode similarity_row score_lt pick
                user_message chatbot with
        | (Returned response, chatbot') => (Response response, chatbot')
        | (Raised e, chatbot') => (InternalError (BotError e), chatbot')
        end
  end.

(** A run of requests, served one after the other. *)
Fixpoint serve (requests : list (nat * Body)) (chatbot : Bot) : list Reply * Bot :=
  match requests with
  | [] => ([], chatbot)
  | (pick, body) :: requests' =>
      let '(reply, chatbot') := chat pick body chatbot in
      let '(replies, chatbot'') := serve requests' chatbot' in
      (reply :: replies, chatbot'')
  end.

End Handler.

(** The requests that reach the bot, as turns: those with a non-empty
    message. *)
Definition turn_of (request : nat * Body) : option (nat * string) :=
  match snd request with
  | JsonObject (Some message) =>
      if nonempty message then Some (fst request, message) else None
  | _ => None
  end.

Definition turns_of (requests : list (nat * Body)) : list (nat * string) :=
  omap turn_of requests.

(** ** Training data of [fine_tuning.py] *)

(** [InputExample(texts=[a, b], label=l)]; the label is [1.0] or [0.0]. *)
Inductive Label : Type := Similar | Dissimilar.

Record InputExample : Type := mkExample {
  texts : list string;
  label : Label
}.

Definition _create_sample_training_data : list TrainingPoint :=
  [ {| question := "What causes abdominal pain?";
       answer := "Abdominal pain can be caused by indigestion, food poisoning, stomach flu, IBS, constipation, gas, appendicitis, gallstones, kidney stones, ulcers, and inflammatory bowel disease." |};
    {| question := "What are the symptoms of abdominal pain?";
       answer := "Symptoms include cramping, sharp pain, nausea, vomiting, loss of appetite, fever, diarrhea, constipation, bloating, and heartburn." |};
    {| question := "When should I seek medical attention for abdominal pain?";
       answer := "Seek immediate medical attention for severe sudden pain, pain with fever, vomiting blood, black stools, pain lasting over 24 hours, or pain with difficulty breathing." |};
    {| question := "What home remedies help with abdominal pain?";
       answer := "Home remedies include rest, heat therapy, hydration, bland diet, avoiding irritants, and over-the-counter medications as appropriate." |};
    {| question := "How can I prevent abdominal pain?";
       answer := "Prevention includes eating a healthy diet, staying hydrated, exercising regularly, managing stress, avoiding smoking and excessive alcohol, and practicing good food hygiene." |};
    {| question := "What is appendicitis?";
       answer := "Appendicitis is inflammation of the appendix causing sudden pain in the lower right abdomen, nausea, vomiting, loss of appetite, fever, and pain that worsens with movement." |};
    {| question := "What are gallstones?";
       answer := "Gallstones are hardened deposits in the gallbladder causing sudden intense pain in the upper right abdomen, pain in the right shoulder, nausea, vomiting, and back pain." |};
    {| question := "What is IBS?";
       answer := "Irritable Bowel Syndrome is a chronic condition affecting the large intestine with symptoms including cramping, bloating, gas, diarrhea or constipation, and mucus in stool." |} ].

Definition cause_point (cause : Cause) : TrainingPoint :=
  {| question := "What causes " +:+ lower (default "" (condition cause)) +:+ "?";
     answer := default "" (description cause) |}.

Definition remedy_text (r : Remedy) : string :=
  default "" (remedy r) +:+ ": " +:+ default "" (remedy_description r).

Definition _extract_training_data (data : MedicalData) : list TrainingPoint :=
  map cause_point (causes data) ++
  (match emergency_symptoms data with
   | [] => []
   | emergencies =>
       [ {| question := "When should I seek emergency medical attention for abdominal pain?";
            answer := "Seek emergency care for: " +:+ join ", " emergencies |} ]
   end) ++
  (match home_remedies data with
   | [] => []
   | remedies =>
       [ {| question := "What home remedies help with abdominal pain?";
            answer := "Home remedies include: " +:+ join "; " (map remedy_text remedies) |} ]
   end).

(** [l.index(x)]: the position of the first element equal to [x]. *)
Fixpoint index_of (x : TrainingPoint) (l : list TrainingPoint) : option nat :=
  match l with
  | [] => None
  | y :: l' => if decide (y = x) then Some 0 else S <$> index_of x l'
  end.

(** The item paired with [item] for its negative example; [item] is drawn
    from [training_data], so both look-ups succeed. *)
Definition other_item (training_data : list TrainingPoint) (item : TrainingPoint)
  : option TrainingPoint :=
  i ← index_of item training_data;
  training_data !! ((i + 1) mod length training_data).

Definition examples_of (training_data : list TrainingPoint) (item : TrainingPoint)
  : list InputExample :=
  {| texts := [question item; answer item]; label := Similar |} ::
  (if (1 <? length training_data)%nat then
     match other_item training_data item with
     | Some other => [ {| texts := [question item; answer other]; label := Dissimilar |} ]
     | None => []
     end
   else []).

(** [prepare_training_data]; [data_file] is the content of
    [abdominal_pain_data.json], or [None] when the file does not exist. *)
Definition training_examples (training_data : list TrainingPoint) : list InputExample :=
  training_data ≫= examples_of training_data.

Definition prepare_training_data (data_file : option MedicalData) : list InputExample :=
  let training_data :=
    match data_file with
    | None => _create_sample_training_data
    | Some data => _extract_training_data data
    end in
  training_examples training_data.

(** ** The installer of [setup.py]

    The side effects are kept as a trace, oldest first: a directory made, the
    [.env] file written, a shell command run in a working directory.  The
    shell is an oracle: given the number of commands run before, the command
    and its directory, it tells how [subprocess.run] ends: with the standard
    output, with [CalledProcessError] (a non-zero exit status), or with
    another exception (the directory is missing), which [run_command] does
    not catch.  What is printed is left out. *)

Inductive Event : Type :=
| Makedirs (path : string)
| WriteEnv
| Run (command : string) (cwd : option string).

Inductive ShellResult : Type :=
| Stdout (out : string)
| CalledProcessError
| OtherError.

(** How [main] ends: it returns, it calls [sys.exit(1)], or an exception
    leaves it. *)
Inductive ExitCode : Type := Finished | Exit1 | Uncaught.

Section Setup.

Variable shell : nat → string → option string → ShellResult.

Definition commands_run (trace : list Event) : nat :=
  length (List.filter (fun e => match e with Run _ _ => true | _ => false end) trace).

(** The result is [None] when an exception leaves [run_command], and
    otherwise what it returns: the stripped output, or [None]. *)
Definition run_command (command : string) (cwd : option string) (trace : list Event)
  : option (option string) * list Event :=
  (match shell (commands_run trace) command cwd with
   | Stdout out => Some (Some (strip out))
   | CalledProcessError => Some None
   | OtherError => None
   end,
   trace ++ [Run command cwd]).

(** [if run_command(...) is None: return False], then the rest. *)
Definition or_fail (ran : option (option string) * list Event)
    (rest : list Event → option bool * list Event) : option bool * list Event :=
  match ran with
  | (None, trace) => (None, trace)
  | (Some None, trace) => (Some false, trace)
  | (Some (Some _), trace) => rest trace
  end.

Definition setup_backend (trace : list Event) : option bool * list Event :=
  let trace := trace ++ [Makedirs "backend/data"; Makedirs "backend/models"] in
  or_fail (run_command "pip install -r requirements.txt" None trace) (fun trace =>
  or_fail (run_command "python backend/data_scraper.py" (Some ".") trace) (fun trace =>
  or_fail (run_command "python backend/fine_tuning.py" (Some ".") trace) (fun trace =>
  (Some true, trace)))).

Definition setup_frontend (trace : list Event) : option bool * list Event :=
  or_fail (run_command "node --version" None trace) (fun trace =>
  or_fail (run_command "npm --version" None trace) (fun trace =>
  or_fail (run_command "npm install" (Some "frontend") trace) (fun trace =>
  (Some true, trace)))).

(** [main()], from an empty trace. *)
Definition setup_main : ExitCode * list Event :=
  let trace := [WriteEnv] in
  match setup_backend trace with
  | (None, trace) => (Uncaught, trace)
  | (Some false, trace) => (Exit1, trace)
  | (Some true, trace) =>
      match setup_frontend trace with
      | (None, trace) => (Uncaught, trace)
      | (Some false, trace) => (Exit1, trace)
      | (Some true, trace) => (Finished, trace)
      end
  end.

End Setup.

(** The six commands of a complete installation, in order. *)
Definition setup_commands : list Event :=
  [ Run "pip install -r requirements.txt" None;
    Run "python backend/data_scraper.py" (Some ".");
    Run "python backend/fine_tuning.py" (Some ".");
    Run "node --version" None;
    Run "npm --version" None;
    Run "npm install" (Some "frontend") ].

(** ** The data of [data_scraper.py]

    The keys of [scrape_abdominal_pain_data] that the bot and the trainer
    read. *)

Definition scraped_data : MedicalData :=
  {| causes :=
       [ {| condition := Some "Indigestion";
            description := Some "Discomfort or burning in the upper abdomen, often after eating";
            symptoms := ["Bloating"; "Nausea"; "Feeling full quickly"; "Burping"] |};
         {| condition := Some "Food poisoning";
            description := Some "Illness caused by eating contaminated food";
            symptoms := ["Nausea"; "Vomiting"; "Diarrhea"; "Fever"; "Stomach cramps"] |};
         {| condition := Some "Gastroenteritis (Stomach flu)";
            description := Some "Inflammation of the stomach and intestines";
            symptoms := ["Watery diarrhea"; "Nausea"; "Vomiting"; "Stomach cramps"; "Fever"] |};
         {| condition := Some "Irritable Bowel Syndrome (IBS)";
            description := Some "Chronic condition affecting the large intestine";
            symptoms := ["Cramping"; "Bloating"; "Gas"; "Diarrhea or constipation";
                         "Mucus in stool"] |};
         {| condition := Some "Constipation";
            description := Some "Infrequent bowel movements or difficult passage of stools";
            symptoms := ["Fewer than 3 bowel movements per week"; "Hard, dry stools";
                         "Straining during bowel movements";
                         "Feeling of incomplete evacuation"] |};
         {| condition := Some "Appendicitis";
            description := Some "Inflammation of the appendix";
            symptoms := ["Sudden pain in lower right abdomen"; "Nausea"; "Vomiting";
                         "Loss of appetite"; "Fever"; "Pain that worsens with movement"] |};
         {| condition := Some "Gallstones";
            description := Some "Hardened deposits in the gallbladder";
            symptoms := ["Sudden, intense pain in upper right abdomen";
                         "Pain in right shoulder"; "Nausea"; "Vomiting"; "Back pain"] |};
         {| condition := Some "Kidney stones";
            description := Some "Hard deposits of minerals and salts in the kidneys";
            symptoms := ["Severe pain in side and back"; "Pain radiating to lower abdomen";
                         "Painful urination"; "Pink, red, or brown urine"; "Nausea";
                         "Vomiting"] |};
         {| condition := Some "Peptic ulcers";
            description := Some "Sores in the lining of the stomach or small intestine";
            symptoms := ["Burning stomach pain"; "Feeling of fullness"; "Bloating";
                         "Heartburn"; "Nausea"; "Intolerance to fatty foods"] |};
         {| condition := Some "Inflammatory Bowel Disease (IBD)";
            description := Some "Chronic inflammation of the digestive tract";
            symptoms := ["Diarrhea"; "Fatigue"; "Abdominal pain and cramping";
                         "Blood in stool"; "Reduced appetite"; "Unintended weight loss"] |} ];
     emergency_symptoms :=
       [ "Severe, sudden abdominal pain";
         "Pain with fever";
         "Pain with vomiting blood";
         "Pain with black, tarry stools";
         "Pain that lasts more than 24 hours";
         "Pain that gets worse over time";
         "Pain with difficulty breathing";
         "Pain with chest pressure";
         "Pain with dizziness or fainting";
         "Pain with rapid heartbeat" ];
     home_remedies :=
       [ {| remedy := Some "Rest";
            remedy_description := Some "Avoid strenuous activity and get plenty of rest" |};
         {| remedy := Some "Heat therapy";
            remedy_description :=
              Some "Apply a heating pad or warm compress to the affected area" |};
         {| remedy := Some "Hydration";
            remedy_description := Some "Drink clear fluids like water, broth, or clear juices" |};
         {| remedy := Some "Bland diet";
            remedy_description :=
              Some "Eat bland foods like rice, toast, bananas, and applesauce" |};
         {| remedy := Some "Avoid irritants";
            remedy_description := Some "Stay away from spicy, fatty, or acidic foods" |};
         {| remedy := Some "Over-the-counter medications";
            remedy_description :=
              Some "Consider antacids, pain relievers, or anti-diarrheal medications as appropriate" |} ] |}.

(** The reply a turn records in the history: none when the turn raised. *)
Definition reply_of (result : outcome string) : option string :=
  match result with
  | Returned response => Some response
  | Raised _ => None
  end.

(** The entry a turn leaves in the history. *)
Definition entry_of (message : string) (result : outcome string) : Turn :=
  {| user := message; timestamp := None; bot := reply_of result |}.

(** ** Vocabulary of the case state *)

Definition location_labels : list string := map fst location_map.

Definition severity_labels : list string := ["mild"; "moderate"; "severe"].

(** A scalar is unset or holds one of [labels]. *)
Definition unset_or (labels : list string) (v : option string) : Prop :=
  match v with Some s => s ∈ labels | None => True end.

(** The shape of a duration stored for a message of ASCII characters: a
    count, blanks, a unit. *)
Definition duration_text (m : string) : Prop :=
  ∃ count blanks unit_word,
    m = count +:+ blanks +:+ unit_word ∧
    (count ≠ "" ∧ all_chars is_digit count = true ∨
     count ∈ ["one"; "two"; "three"; "four"; "five"]) ∧
    all_chars is_space blanks = true ∧
    unit_word ∈ ["hour"; "hours"; "day"; "days"].

(** The case states the extractor and the merge can produce. *)
Definition case_in_vocabulary (c : CaseState) : Prop :=
  unset_or ["today"; "yesterday"] (onset c) ∧
  unset_or location_labels (location c) ∧
  unset_or severity_labels (severity c) ∧
  (∀ m, duration c = Some m → duration_text m) ∧
  (∀ x, x ∈ associated_symptoms c → x ∈ assoc_terms).

(** [not_below lt x y]: the score of [x] is not below the score of [y]. *)
Definition not_below {A score : Type} (score_lt : score → score → bool)
    (x y : A * score) : Prop :=
  score_lt (snd x) (snd y) = false.

(** A word: not empty, and without a blank. *)
Definition is_word_text (w : string) : Prop :=
  nonempty w = true ∧ all_chars (fun c => negb (is_space c)) w = true.

(** The words [fine_tune] adds for the items that [route] selects. *)
Definition words_added (route : TrainingPoint → bool) (training_data : list TrainingPoint)
  : list string :=
  List.filter route training_data ≫= (fun data_point => split_ws (answer data_point)).

Definition asks_causes (data_point : TrainingPoint) : bool :=
  contains "causes" (lower (question data_point)).

Definition asks_symptoms_only (data_point : TrainingPoint) : bool :=
  negb (contains "causes" (lower (question data_point))) &&
  contains "symptoms" (lower (question data_point)).

Definition positive (item : TrainingPoint) : InputExample :=
  {| texts := [question item; answer item]; label := Similar |}.

Definition negative (item other : TrainingPoint) : InputExample :=
  {| texts := [question item; answer other]; label := Dissimilar |}.

(** The prelude of an installation: what [main] and [setup_backend] do
    before the first command. *)
Definition setup_prelude : list Event :=
  [WriteEnv; Makedirs "backend/data"; Makedirs "backend/models"].

(** How the [i]-th command of the installation ends, when it is reached. *)
Definition command_result (shell : nat → string → option string → ShellResult) (i : nat)
  : option ShellResult :=
  match setup_commands !! i with
  | Some (Run command cwd) => Some (shell i command cwd)
  | _ => None
  end.

Definition succeeded (r : option ShellResult) : bool :=
  match r with Some (Stdout _) => true | _ => false end.

(** ** Pairs of adjacent letters

    [has_pair a b s]: somewhere in [s] a character that lowers to [a] is
    followed by one that lowers to [b].  [vocabulary_free a b] checks, on the
    finite tables of the extractor and of the summary, that no summary of a
    case within the vocabulary can hold such a pair. *)

Definition is_ch (a c : ascii) : bool := bool_decide (lower_char c = a).

Fixpoint has_pair (a b : ascii) (s : string) : bool :=
  match s with
  | EmptyString => false
  | String x t =>
      match t with
      | EmptyString => false
      | String y _ => (is_ch a x && is_ch b y) || has_pair a b t
      end
  end.

Definition starts_ch (b : ascii) (s : string) : bool :=
  match s with String x _ => is_ch b x | EmptyString => false end.

Fixpoint ends_ch (a : ascii) (s : string) : bool :=
  match s with
  | EmptyString => false
  | String x t => match t with EmptyString => is_ch a x | String _ _ => ends_ch a t end
  end.

Definition summary_labels : list string :=
  ["onset "; "duration "; "location "; "severity "; "symptoms "].

Definition count_words : list string := ["one"; "two"; "three"; "four"; "five"].
Definition unit_words : list string := ["hour"; "hours"; "day"; "days"].

Definition all_ascii : list ascii := map ascii_of_nat (seq 0 256).

Definition vocabulary_free (a b : ascii) : bool :=
  forallb (fun s => negb (has_pair a b s))
    (["abdominal pain"; "; "; ", "; "today"; "yesterday"] ++ summary_labels ++
     location_labels ++ severity_labels ++ assoc_terms ++ count_words ++ unit_words) &&
  forallb (fun s => negb (ends_ch a s)) (["; "; ", "] ++ summary_labels) &&
  forallb (fun s => negb (starts_ch b s)) ["; "; ", "] &&
  forallb (fun w => forallb (fun u => negb (ends_ch a w && starts_ch b u)) unit_words)
    count_words &&
  forallb (fun c => negb ((is_digit c || is_space c) && (is_ch a c || is_ch b c))) all_ascii.

(** A sufficient check that a term occurs in no summary of a case within
    the vocabulary: it holds one of a few pairs of letters that the
    vocabulary is free of.  A phrase is dead when each of its terms is empty
    or passes the check. *)
Definition letter_pairs : list (ascii * ascii) :=
  [("w", "i"); ("h", "a"); ("d", "d"); ("o", "o")]%char.

Definition never_matches (term : string) : bool :=
  existsb (fun ab => vocabulary_free (fst ab) (snd ab) && has_pair (fst ab) (snd ab) term)
          letter_pairs.

Definition dead_phrase (item : string) : bool :=
  forallb (fun term => negb (nonempty term) || never_matches term)
          (map strip (split_seps item)).

(** The phrases of the four greeting patterns. *)
Definition greeting_phrases : list string :=
  ["hi"; "hello"; "hey"; "good morning"; "good afternoon"; "good evening";
   "how are you"; "what's up"; "how's it going"].

(** More sample data: a shell on which every command succeeds and three
    requests. *)
Definition ok_shell (n : nat) (command : string) (cwd : option string) : ShellResult :=
  Stdout "".

Definition sample_requests : list (nat * Body) :=
  [(0, JsonObject (Some "my stomach hurts")); (0, NoJson); (0, JsonObject (Some ""))].

Definition stub_chat (body : Body) (chatbot : Bot) : Reply * Bot :=
  chat nat nat stub_encode stub_similarity Nat.ltb 0 body chatbot.

Definition stub_run (turns : list (nat * string)) (self : Bot) : Bot :=
  run nat nat stub_encode stub_similarity Nat.ltb turns self.

(** * Properties *)

(** ** Sanity checks of the embedding *)

Example lower_ex : lower "Hello, World_9" = "hello, world_9".
Proof. reflexivity. Qed.

Example facts_ex :
  let f := _extract_structured_facts
             "I have mild pain in my lower right abdomen since yesterday, 2 days, with Fever and gas" in
  (onset f, location f, severity f, duration f, sorted (associated_symptoms f),
   _case_summary_text f)
  = (Some "yesterday", Some "lower right", Some "mild", Some "2 days", ["fever"; "gas"],
     "onset yesterday; duration 2 days; location lower right; severity mild; symptoms fever, gas").
Proof. vm_compute. reflexivity. Qed.

Example duration_ex :
  (search duration_re "for 3hours now", search duration_re "about two  days",
   search duration_re "one dayss, then 12 hour", search duration_re "x5 days")
  = (Some "3hours", Some "two  days", Some "12 hour", None).
Proof. vm_compute. reflexivity. Qed.

Example greeting_ex :
  (_is_greeting "Hi there", _is_greeting "this hurts", _is_greeting "What's up?",
   _is_greeting "so, how are you", _is_greeting "my stomach hurts")
  = (true, false, true, true, false).
Proof. vm_compute. reflexivity. Qed.

Example split_strip_ex :
  map strip (split_seps " Severe, sudden pain ;; fever: ")
  = ["Severe"; "sudden pain"; ""; "fever"; ""].
Proof. vm_compute. reflexivity. Qed.

Example red_flag_ex :
  _red_flag_check
    {| causes := []; emergency_symptoms := ["Fever"; "fever"; "Severe, sudden abdominal pain"];
       home_remedies := [] |}
    case_severe_fever
  = ["fever"; "severe, sudden abdominal pain"; "Severe abdominal pain"; "Pain with fever"].
Proof. vm_compute. reflexivity. Qed.

Example turn_ex :
  fst (get_response nat nat stub_encode stub_similarity Nat.ltb 0
         "severe pain in the lower right abdomen since last night" (new_bot one_cause_data))
  = Returned
      (join nl
         ["Thanks for the details. From what you've shared (onset yesterday; location lower right; severity severe), here are the most likely possibilities based on my training data:";
          "• Gastritis: Inflammation of the stomach lining";
          nl +:+ "Based on red-flag symptoms, I recommend urgent medical attention:";
          "• Severe abdominal pain";
          nl +:+ "Note: I share general information about abdominal pain in adults and don’t replace a clinician."]).
Proof. vm_compute. reflexivity. Qed.

(** ** Text lemmas *)

Section TextFacts.

Lemma string_app_cons x (a b : string) : String x a +:+ b = String x (a +:+ b).
Proof. reflexivity. Qed.

Lemma string_app_nil_l (b : string) : "" +:+ b = b.
Proof. reflexivity. Qed.

Lemma string_app_assoc (a b c : string) : (a +:+ b) +:+ c = a +:+ (b +:+ c).
Proof. induction a as [|x a IH]; [done|]. by rewrite !string_app_cons, IH. Qed.

Lemma string_app_nil_r (a : string) : a +:+ "" = a.
Proof. induction a as [|x a IH]; [done|]. by rewrite string_app_cons, IH. Qed.

(** A joined list ends with its last piece. *)
Lemma join_snoc sep l x : ∃ body, join sep (l ++ [x]) = body +:+ x.
Proof.
  induction l as [|y l [body IH]].
  - by exists "".
  - exists (y +:+ sep +:+ body).
    change (join sep ((y :: l) ++ [x])) with (join sep (y :: l ++ [x])).
    destruct (l ++ [x]) as [|z l'] eqn:E; [by destruct l|].
    change (join sep (y :: z :: l')) with (y +:+ sep +:+ join sep (z :: l')).
    by rewrite IH, !string_app_assoc.
Qed.

Lemma lower_char_idem c : lower_char (lower_char c) = lower_char c.
Proof. destruct c as [[] [] [] [] [] [] [] []]; reflexivity. Qed.

Lemma lower_idem s : lower (lower s) = lower s.
Proof. induction s as [|c s IH]; simpl; [done|]. by rewrite lower_char_idem, IH. Qed.

Lemma lower_char_not_upper c : is_upper (lower_char c) = false.
Proof. destruct c as [[] [] [] [] [] [] [] []]; reflexivity. Qed.

Lemma starts_with_lower needle hay :
  starts_with needle hay = true → starts_with (lower needle) (lower hay) = true.
Proof.
  revert hay. induction needle as [|a n IH]; intros [|b h]; simpl; try done.
  rewrite !andb_true_iff, !bool_decide_eq_true. intros [-> Hn]. split; [done|]. by apply IH.
Qed.

Lemma contains_lower needle hay :
  contains needle hay = true → contains (lower needle) (lower hay) = true.
Proof.
  induction hay as [|b h IH]; simpl; rewrite !orb_true_iff.
  - intros [H|H]; [|done]. left. by apply (starts_with_lower needle "").
  - intros [H|H]; [left; by apply (starts_with_lower needle (String b h))|right; by apply IH].
Qed.

Lemma any_in_spec words text :
  any_in words text = true ↔ ∃ w, w ∈ words ∧ contains w text = true.
Proof.
  unfold any_in. rewrite existsb_exists. setoid_rewrite <- list_elem_of_In. done.
Qed.

Lemma any_in_mono words words' text :
  words ⊆ words' → any_in words text = true → any_in words' text = true.
Proof. rewrite !any_in_spec. intros Hsub (w & Hw & Hc). exists w. split; [by apply Hsub|done]. Qed.

End TextFacts.

(** ** Red flags *)

Lemma elem_of_fromkeys x l : x ∈ fromkeys l ↔ x ∈ l.
Proof.
  induction l as [|y l IH]; simpl; [done|].
  rewrite !elem_of_cons, list_elem_of_filter, IH.
  destruct (decide (x = y)); tauto.
Qed.

Lemma NoDup_fromkeys l : NoDup (fromkeys l).
Proof.
  induction l as [|y l IH]; simpl; [constructor|].
  constructor; [|by apply NoDup_filter].
  rewrite list_elem_of_filter. tauto.
Qed.

Lemma elem_of_red_flag_check data case x :
  x ∈ _red_flag_check data case ↔
  (x ∈ map lower (emergency_symptoms data) ∧
   emergency_hit (lower (_case_summary_text case)) x = true) ∨
  x ∈ explicit_flags case (lower (_case_summary_text case)).
Proof.
  unfold _red_flag_check. rewrite elem_of_fromkeys, elem_of_app.
  rewrite (list_elem_of_In (List.filter _ _) x), filter_In, <- list_elem_of_In. tauto.
Qed.

(** C1: whatever the knowledge document holds, the flags returned by the
    red-flag check include "Severe abdominal pain" when the severity of the
    case is "severe", and include "Pain with fever" when "fever" is among
    the associated symptoms of the case. *)
Theorem red_flag_severe_and_fever (data : MedicalData) (case : CaseState) :
  (severity case = Some "severe" → "Severe abdominal pain" ∈ _red_flag_check data case) ∧
  ("fever" ∈ associated_symptoms case → "Pain with fever" ∈ _red_flag_check data case).
Proof.
  split; intros H; apply elem_of_red_flag_check; right; unfold explicit_flags.
  - rewrite bool_decide_eq_true_2 by done. set_solver.
  - rewrite (bool_decide_eq_true_2 (_ ∈ _)) by done. set_solver.
Qed.

Lemma red_flag_severe_and_fever_witness :
  severity case_severe_fever = Some "severe" ∧
  "fever" ∈ associated_symptoms case_severe_fever ∧
  "Severe abdominal pain" ∈ _red_flag_check fallback_medical_data case_severe_fever ∧
  "Pain with fever" ∈ _red_flag_check fallback_medical_data case_severe_fever.
Proof.
  destruct (red_flag_severe_and_fever fallback_medical_data case_severe_fever) as [H1 H2].
  assert ("fever" ∈ associated_symptoms case_severe_fever) as Hfever
    by (simpl; apply elem_of_singleton; reflexivity).
  split_and!; [reflexivity|exact Hfever|apply H1; reflexivity|apply H2; exact Hfever].
Defined.

(** ** Severity extraction *)

(** C4: the severity words are tried in the order mild, moderate,
    severe/worst and the first one found in the lowered message decides; a
    message that holds both "mild" and "severe" is extracted as "mild". *)
Theorem severity_first_hit_wins (message : string) :
  let text := lower message in
  let extracted := severity (_extract_structured_facts message) in
  (contains "mild" text = true → extracted = Some "mild") ∧
  (contains "mild" text = false → contains "moderate" text = true →
   extracted = Some "moderate") ∧
  (contains "mild" text = false → contains "moderate" text = false →
   contains "severe" text = true ∨ contains "worst" text = true →
   extracted = Some "severe") ∧
  (contains "mild" text = false → contains "moderate" text = false →
   contains "severe" text = false → contains "worst" text = false →
   extracted = None) ∧
  (contains "mild" message = true → contains "severe" message = true →
   extracted = Some "mild").
Proof.
  simpl. unfold extract_severity.
  repeat split.
  - by intros ->.
  - by intros -> ->.
  - intros -> -> [->| ->]; [done|]. by rewrite orb_true_r.
  - by intros -> -> -> ->.
  - intros Hm _. pose proof (contains_lower "mild" message Hm) as H.
    change (lower "mild") with "mild" in H. by rewrite H.
Qed.

Lemma severity_first_hit_wins_witness :
  contains "mild" "the pain was severe at night, mild now" = true ∧
  contains "severe" "the pain was severe at night, mild now" = true ∧
  severity (_extract_structured_facts "the pain was severe at night, mild now") = Some "mild".
Proof.
  split_and!; [vm_compute; reflexivity..|].
  apply (severity_first_hit_wins "the pain was severe at night, mild now");
    vm_compute; reflexivity.
Defined.

(** ** The merge and the summary *)

Lemma update_symptoms facts case :
  associated_symptoms (_update_case_state facts case)
  = associated_symptoms case ∪ associated_symptoms facts.
Proof.
  simpl. case_bool_decide as H; [done|].
  rewrite H. by rewrite (right_id_L ∅ (∪)).
Qed.

Lemma truthy_is_Some v : truthy v = true → is_Some v.
Proof. destruct v; [eauto|done]. Qed.

Lemma scalar_merged_kept fact before after :
  scalar_merged fact before after → scalar_kept before after.
Proof.
  intros [->|[Ht ->]]; split; try done.
  - intros _. by apply truthy_is_Some.
Qed.

Lemma update_scalars facts case :
  let case' := _update_case_state facts case in
  scalar_merged (onset facts) (onset case) (onset case') ∧
  scalar_merged (duration facts) (duration case) (duration case') ∧
  scalar_merged (location facts) (location case) (location case') ∧
  scalar_merged (severity facts) (severity case) (severity case').
Proof.
  unfold scalar_merged. simpl.
  destruct (truthy (onset facts)), (truthy (duration facts)),
    (truthy (location facts)), (truthy (severity facts)); auto 10.
Qed.

Lemma update_kept facts case : case_kept case (_update_case_state facts case).
Proof.
  destruct (update_scalars facts case) as (Ho & Hd & Hl & Hs).
  repeat split; try (by apply (scalar_merged_kept _ _ _ Ho));
    try (by apply (scalar_merged_kept _ _ _ Hd));
    try (by apply (scalar_merged_kept _ _ _ Hl));
    try (by apply (scalar_merged_kept _ _ _ Hs)).
  rewrite update_symptoms. set_solver.
Qed.

#[global] Instance scalar_kept_preorder : PreOrder scalar_kept.
Proof.
  split.
  - by intros v.
  - intros a b c [H1 H2] [H3 H4]. split; auto.
Qed.

#[global] Instance case_kept_preorder : PreOrder case_kept.
Proof.
  split.
  - intros c. unfold case_kept. by split_and!.
  - intros a b c (H1 & H2 & H3 & H4 & H5) (G1 & G2 & G3 & G4 & G5).
    unfold case_kept. split_and!;
      [by trans (onset b)|by trans (duration b)|by trans (location b)
      |by trans (severity b)|set_solver].
Qed.

Lemma sorted_spec (s : gset string) :
  StronglySorted String.le (sorted s) ∧ NoDup (sorted s) ∧ (∀ x, x ∈ sorted s ↔ x ∈ s).
Proof.
  unfold sorted. split; [|split].
  - apply (StronglySorted_merge_sort String.le).
  - rewrite merge_sort_Permutation. apply NoDup_elements.
  - intros x. rewrite merge_sort_Permutation. apply elem_of_elements.
Qed.

Lemma sorted_any_order (s : gset string) (l : list string) :
  l ≡ₚ elements s → merge_sort String.le l = sorted s.
Proof.
  intros Hl. apply (StronglySorted_unique String.le).
  - apply (StronglySorted_merge_sort String.le).
  - apply sorted_spec.
  - unfold sorted. by rewrite !merge_sort_Permutation.
Qed.

Lemma summary_parts_last case :
  associated_symptoms case ≠ ∅ →
  last (summary_parts case)
  = Some ("symptoms " +:+ join ", " (sorted (associated_symptoms case))).
Proof.
  intros H. unfold summary_parts. rewrite (bool_decide_eq_true_2 _ H).
  rewrite !app_assoc. apply last_snoc.
Qed.

Lemma summary_all_absent case :
  truthy (onset case) = false → truthy (duration case) = false →
  truthy (location case) = false → truthy (severity case) = false →
  associated_symptoms case = ∅ →
  _case_summary_text case = "abdominal pain".
Proof.
  intros Ho Hd Hl Hs Ha. unfold _case_summary_text, summary_parts.
  rewrite Ho, Hd, Hl, Hs, Ha. reflexivity.
Qed.

Lemma summary_ext c1 c2 :
  onset c1 = onset c2 → duration c1 = duration c2 →
  location c1 = location c2 → severity c1 = severity c2 →
  (∀ x, x ∈ associated_symptoms c1 ↔ x ∈ associated_symptoms c2) →
  _case_summary_text c1 = _case_summary_text c2.
Proof.
  destruct c1 as [o1 l1 s1 a1 d1], c2 as [o2 l2 s2 a2 d2]; simpl. intros -> -> -> -> Ha.
  assert (a1 = a2) as -> by (apply set_eq; exact Ha). reflexivity.
Qed.

(** The summary of a case with symptoms ends with their sorted rendering. *)
Lemma summary_ends_with_symptoms case :
  associated_symptoms case ≠ ∅ →
  ∃ before,
    _case_summary_text case
    = before +:+ ("symptoms " +:+ join ", " (sorted (associated_symptoms case))).
Proof.
  intros H. unfold _case_summary_text, summary_parts. rewrite (bool_decide_eq_true_2 _ H).
  rewrite !app_assoc.
  set (shown := "symptoms " +:+ _).
  match goal with |- context [?l ++ [shown]] => set (scalars := l) end.
  destruct (join_snoc "; " scalars shown) as [body Hb].
  exists body. rewrite <- Hb. by destruct scalars.
Qed.

(** C9: the case summary depends on the case state alone.  The sorted
    list of the symptoms is in ascending order of [str], holds each member
    once, and is the same for every enumeration of the set.  The summary
    text of a case with symptoms ends with ["symptoms "] followed by that
    list joined by [", "], and is exactly that when no scalar is set; the
    summary text after two turns that added symptoms is the same in either
    order of the turns; two case states with the same scalars and the same
    members have the same summary text; and with every field absent the
    summary text is ["abdominal pain"]. *)
Theorem case_summary_deterministic :
  (∀ case, let shown := sorted (associated_symptoms case) in
     StronglySorted String.le shown ∧ NoDup shown ∧
     (∀ x, x ∈ shown ↔ x ∈ associated_symptoms case)) ∧
  (∀ case l, l ≡ₚ elements (associated_symptoms case) →
     merge_sort String.le l = sorted (associated_symptoms case)) ∧
  (∀ case, associated_symptoms case ≠ ∅ →
     last (summary_parts case)
     = Some ("symptoms " +:+ join ", " (sorted (associated_symptoms case)))) ∧
  (∀ case, associated_symptoms case ≠ ∅ →
     ∃ before,
       _case_summary_text case
       = before +:+ ("symptoms " +:+ join ", " (sorted (associated_symptoms case)))) ∧
  (∀ case, truthy (onset case) = false → truthy (duration case) = false →
     truthy (location case) = false → truthy (severity case) = false →
     associated_symptoms case ≠ ∅ →
     _case_summary_text case
     = "symptoms " +:+ join ", " (sorted (associated_symptoms case))) ∧
  (∀ facts1 facts2 case,
     sorted (associated_symptoms (_update_case_state facts2 (_update_case_state facts1 case)))
     = sorted (associated_symptoms (_update_case_state facts1 (_update_case_state facts2 case)))) ∧
  (∀ (added1 added2 : gset string) case,
     let symptoms_only added :=
       {| onset := None; location := None; severity := None;
          associated_symptoms := added; duration := None |} in
     _case_summary_text
       (_update_case_state (symptoms_only added2)
          (_update_case_state (symptoms_only added1) case))
     = _case_summary_text
         (_update_case_state (symptoms_only added1)
            (_update_case_state (symptoms_only added2) case))) ∧
  (∀ c1 c2, onset c1 = onset c2 → duration c1 = duration c2 →
     location c1 = location c2 → severity c1 = severity c2 →
     (∀ x, x ∈ associated_symptoms c1 ↔ x ∈ associated_symptoms c2) →
     _case_summary_text c1 = _case_summary_text c2) ∧
  (∀ case, truthy (onset case) = false → truthy (duration case) = false →
     truthy (location case) = false → truthy (severity case) = false →
     associated_symptoms case = ∅ →
     _case_summary_text case = "abdominal pain").
Proof.
  split_and!.
  - intros case. apply sorted_spec.
  - intros case l. apply sorted_any_order.
  - apply summary_parts_last.
  - apply summary_ends_with_symptoms.
  - intros case Ho Hd Hl Hs Ha. unfold _case_summary_text, summary_parts.
    rewrite Ho, Hd, Hl, Hs, (bool_decide_eq_true_2 _ Ha). reflexivity.
  - intros f1 f2 case. rewrite !update_symptoms. f_equal. set_solver.
  - intros added1 added2 case symptoms_only. apply summary_ext; [done..|].
    intros x. rewrite !update_symptoms. subst symptoms_only. simpl. set_solver.
  - apply summary_ext.
  - apply summary_all_absent.
Qed.

Lemma case_summary_deterministic_witness :
  merge_sort String.le ["vomiting"; "fever"; "nausea"] = sorted (associated_symptoms case_three) ∧
  associated_symptoms case_three ≠ ∅ ∧
  _case_summary_text case_three = "symptoms fever, nausea, vomiting" ∧
  _case_summary_text empty_case = "abdominal pain".
Proof.
  destruct case_summary_deterministic as (_ & Hany & _ & _ & Honly & _ & _ & _ & Habsent).
  assert (associated_symptoms case_three ≠ ∅) as Hne.
  { intros H. assert ("fever" ∈ associated_symptoms case_three) as Hin by (simpl; set_solver).
    rewrite H in Hin. exact (not_elem_of_empty _ Hin). }
  assert (merge_sort String.le ["vomiting"; "fever"; "nausea"]
          = sorted (associated_symptoms case_three)) as Hsorted.
  { apply (Hany case_three). apply NoDup_Permutation.
    + apply (bool_decide_unpack (NoDup ["vomiting"; "fever"; "nausea"])). vm_compute. exact I.
    + apply NoDup_elements.
    + intros x. rewrite elem_of_elements. simpl. set_solver. }
  split_and!.
  - exact Hsorted.
  - exact Hne.
  - rewrite (Honly case_three); [|reflexivity..|exact Hne].
    rewrite <- Hsorted. vm_compute. reflexivity.
  - apply (Habsent empty_case); reflexivity.
Defined.

(** ** The cause ranker *)

Section RankerFacts.

Context {vector score : Type}.
Context (encode : nat → list string → option (list vector)).
Context (similarity_row : list vector → list vector → list score).
Context (score_lt : score → score → bool).

Local Abbreviation rank := (_rank_causes vector score encode similarity_row score_lt).

Lemma length_insert_desc x l :
  length (insert_desc score score_lt x l) = S (length l).
Proof.
  induction l as [|y l IH]; simpl; [done|].
  destruct (score_lt _ _); simpl; by rewrite ?IH.
Qed.

Lemma length_sorted_desc l : length (sorted_desc score score_lt l) = length l.
Proof.
  induction l as [|x l IH]; simpl; [done|]. by rewrite length_insert_desc, IH.
Qed.

Lemma insert_desc_Permutation x l : insert_desc score score_lt x l ≡ₚ x :: l.
Proof.
  induction l as [|y l IH]; simpl; [done|].
  destruct (score_lt _ _); [|done]. rewrite IH. apply perm_swap.
Qed.

Lemma sorted_desc_Permutation l : sorted_desc score score_lt l ≡ₚ l.
Proof.
  induction l as [|x l IH]; simpl; [done|]. by rewrite insert_desc_Permutation, IH.
Qed.

(** The ranker with no cause to rank. *)
Lemma rank_causes_empty self :
  causes (medical_data self) = [] → rank self = (Returned [], self).
Proof. intros H. unfold _rank_causes, mbind, M_bind, bind, get_self. by rewrite H. Qed.

(** The ranker with causes: two calls to the encoder, in this order. *)
Lemma rank_causes_calls self :
  causes (medical_data self) ≠ [] →
  let n := length (encode_calls self) in
  let case_text := _case_summary_text (current_case self) in
  let cause_texts := map cause_text (causes (medical_data self)) in
  let self1 := log_encode [case_text] self in
  let self2 := log_encode cause_texts self1 in
  rank self =
    match encode n [case_text] with
    | None => (Raised EmbeddingProviderError, self1)
    | Some case_vec =>
        match encode (S n) cause_texts with
        | None => (Raised EmbeddingProviderError, self2)
        | Some cause_vecs =>
            (Returned (take 3 (sorted_desc score score_lt
                                 (zip (causes (medical_data self))
                                      (similarity_row case_vec cause_vecs)))),
             self2)
        end
    end.
Proof.
  intros Hne. unfold _rank_causes, mbind, M_bind, bind, get_self.
  destruct (causes (medical_data self)) as [|c cs] eqn:Hc; [done|].
  unfold model_encode, mret, M_ret, ret; simpl.
  destruct (encode _ [_]) as [v1|]; [|done].
  replace (length (encode_calls (log_encode _ self)))
    with (S (length (encode_calls self)))
    by (simpl; rewrite length_app; simpl; lia).
  by destruct (encode (S _) _) as [v2|].
Qed.

(** Only the ghost trace of calls changes. *)
Lemma rank_causes_frame self :
  let self' := snd (rank self) in
  medical_data self' = medical_data self ∧
  conversation_history self' = conversation_history self ∧
  session_in_scope self' = session_in_scope self ∧
  current_case self' = current_case self.
Proof.
  destruct (decide (causes (medical_data self) = [])) as [H|H].
  - by rewrite rank_causes_empty.
  - rewrite rank_causes_calls by done. simpl.
    destruct (encode _ [_]); [destruct (encode (S _) _)|]; done.
Qed.

Lemma rank_causes_length self ranked self' :
  rank self = (Returned ranked, self') → length ranked ≤ 3.
Proof.
  destruct (decide (causes (medical_data self) = [])) as [H|H].
  - rewrite rank_causes_empty by done. intros [= <- _]. simpl. lia.
  - rewrite rank_causes_calls by done. simpl.
    destruct (encode _ [_]); [destruct (encode (S _) _)|]; intros [= <- _].
    rewrite length_take. lia.
Qed.

(** C7: whatever the knowledge document holds, a result returned by the
    cause ranker has at most 3 pairs, and the ranker does return (with
    at most 3 pairs) whenever the encoder answers its calls; when the
    list of causes is empty the ranker returns the empty list and the
    encoder is not called: the bot is left as it was, its trace of
    encoder calls included. *)
Theorem rank_causes_at_most_three (self : Bot) :
  (∀ ranked self', rank self = (Returned ranked, self') → length ranked ≤ 3) ∧
  ((∀ n batch, is_Some (encode n batch)) →
   ∃ ranked self', rank self = (Returned ranked, self') ∧ length ranked ≤ 3) ∧
  (causes (medical_data self) = [] →
   rank self = (Returned [], self) ∧
   encode_calls (snd (rank self)) = encode_calls self).
Proof.
  split_and!.
  - apply rank_causes_length.
  - intros Hok. destruct (rank self) as [[ranked|e] self'] eqn:Hr.
    + exists ranked, self'. split; [done|]. by eapply rank_causes_length.
    + exfalso. revert Hr.
      destruct (decide (causes (medical_data self) = [])) as [H|H].
      * by rewrite rank_causes_empty.
      * rewrite rank_causes_calls by done. simpl.
        destruct (Hok (length (encode_calls self))
                    [_case_summary_text (current_case self)]) as [v1 ->].
        by destruct (Hok (S (length (encode_calls self)))
                    (map cause_text (causes (medical_data self)))) as [v2 ->].
  - intros H. by rewrite rank_causes_empty.
Qed.

End RankerFacts.

(** ** One turn *)

Section TurnFacts.

Context {vector score : Type}.
Context (encode : nat → list string → option (list vector)).
Context (similarity_row : list vector → list vector → list score).
Context (score_lt : score → score → bool).

Local Abbreviation rank := (_rank_causes vector score encode similarity_row score_lt).
Local Abbreviation analyse :=
  (_build_analysis_response vector score encode similarity_row score_lt).
Local Abbreviation answer :=
  (_get_abdominal_pain_response vector score encode similarity_row score_lt).
Local Abbreviation respond := (get_response vector score encode similarity_row score_lt).
Local Abbreviation converse := (run vector score encode similarity_row score_lt).

Lemma set_last_bot_snoc response h t :
  set_last_bot response (h ++ [t])
  = h ++ [{| user := user t; timestamp := timestamp t; bot := Some response |}].
Proof. unfold set_last_bot. by rewrite reverse_snoc, reverse_involutive. Qed.

Lemma build_analysis_cases self :
  analyse self =
    match rank self with
    | (Returned ranked, self') =>
        (Returned (compose score (medical_data self) (current_case self)
                     (_red_flag_check (medical_data self) (current_case self)) ranked),
         self')
    | (Raised e, self') => (Raised e, self')
    end.
Proof.
  unfold _build_analysis_response, mbind, M_bind, bind, get_self.
  by destruct (rank self) as [[ranked|e] self'].
Qed.

Lemma answer_direct message self reply :
  direct_lookup direct_groups (lower message) = Some reply →
  answer message self = (Returned reply, self).
Proof. intros H. unfold _get_abdominal_pain_response. by rewrite H. Qed.

Lemma answer_analysis message self :
  direct_lookup direct_groups (lower message) = None →
  answer message self =
    analyse (set_case (_update_case_state (_extract_structured_facts message)
                         (current_case self)) self).
Proof. intros H. unfold _get_abdominal_pain_response. by rewrite H. Qed.

Lemma respond_greeting pick message self :
  _is_greeting message = true →
  respond pick message self =
    (Returned (_get_greeting_response pick),
     closed_turn message (_get_greeting_response pick) self).
Proof.
  intros H. unfold get_response, mbind, M_bind, bind, modify, record_reply. rewrite H.
  unfold mbind, M_bind, bind, modify, ret, closed_turn; simpl.
  by rewrite set_last_bot_snoc.
Qed.

Lemma scope_keywords_abdominal text :
  any_in scope_keywords text = true → any_in abdominal_keywords text = true.
Proof. apply any_in_mono. unfold scope_keywords, abdominal_keywords. set_solver. Qed.

Lemma respond_refusal pick message self :
  _is_greeting message = false →
  session_in_scope self = false →
  has_abdominal_keywords message = false →
  respond pick message self = (Returned refusal, closed_turn message refusal self).
Proof.
  intros Hg Hs Hk. unfold get_response, mbind, M_bind, bind, modify, record_reply. rewrite Hg.
  assert (any_in scope_keywords (lower message) = false) as Hn.
  { destruct (any_in scope_keywords (lower message)) eqn:E; [|done].
    apply scope_keywords_abdominal in E. unfold has_abdominal_keywords in Hk. congruence. }
  unfold mbind, M_bind, bind, modify, get_self, ret, closed_turn, _is_out_of_scope.
  cbv beta iota. rewrite Hn, andb_false_r. cbv beta iota.
  change (session_in_scope (set_history ?h self)) with (session_in_scope self).
  rewrite Hk, Hs, Hg. cbn [orb negb set_history conversation_history].
  by rewrite set_last_bot_snoc.
Qed.

Lemma respond_dispatch pick message self :
  _is_greeting message = false →
  session_in_scope self || has_abdominal_keywords message = true →
  respond pick message self =
    match answer message (set_in_scope true (open_turn message self)) with
    | (Returned response, self') =>
        (Returned response,
         set_history (set_last_bot response (conversation_history self')) self')
    | (Raised e, self') => (Raised e, self')
    end.
Proof.
  intros Hg Hs. unfold get_response, mbind, M_bind, bind, modify, record_reply. rewrite Hg.
  unfold mbind, M_bind, bind, modify, get_self, ret, _is_out_of_scope.
  cbv beta iota. fold (open_turn message self). rewrite Hg, orb_false_r.
  change (session_in_scope (open_turn message self)) with (session_in_scope self).
  set (self1 := if negb (session_in_scope self) && _ then _ else open_turn message self).
  assert (has_abdominal_keywords message || session_in_scope self1 = true) as ->.
  { subst self1. destruct (session_in_scope self) eqn:E; simpl in *.
    - unfold open_turn. simpl. rewrite E. apply orb_true_r.
    - by rewrite Hs. }
  cbv beta iota. cbn [negb].
  assert (set_in_scope true self1 = set_in_scope true (open_turn message self)) as ->.
  { subst self1. by destruct (_ && _). }
  by destruct (answer _ _) as [[r|e] self'].
Qed.

Lemma answer_frame message self :
  let self' := snd (answer message self) in
  medical_data self' = medical_data self ∧
  conversation_history self' = conversation_history self ∧
  session_in_scope self' = session_in_scope self ∧
  (current_case self' = current_case self ∨
   direct_lookup direct_groups (lower message) = None ∧
   current_case self'
   = _update_case_state (_extract_structured_facts message) (current_case self)).
Proof.
  destruct (direct_lookup direct_groups (lower message)) as [reply|] eqn:Hd.
  - rewrite (answer_direct _ _ _ Hd). simpl. auto.
  - rewrite (answer_analysis _ _ Hd), build_analysis_cases.
    set (self1 := set_case _ self).
    destruct (rank_causes_frame encode similarity_row score_lt self1) as (H1 & H2 & H3 & H4).
    destruct (rank self1) as [[ranked|e] self2]; cbn [fst snd] in *;
      rewrite H1, H2, H3, H4; subst self1; (split_and!; [done..|right; by split]).
Qed.

(** What a turn can do to the bot. *)
Lemma respond_frame pick message self :
  let self' := snd (respond pick message self) in
  medical_data self' = medical_data self ∧
  (session_in_scope self = true → session_in_scope self' = true) ∧
  (current_case self' = current_case self ∨
   current_case self'
   = _update_case_state (_extract_structured_facts message) (current_case self)).
Proof.
  destruct (_is_greeting message) eqn:Hg.
  { rewrite respond_greeting by done. simpl. auto. }
  destruct (session_in_scope self || has_abdominal_keywords message) eqn:Hs.
  - rewrite respond_dispatch by done.
    destruct (answer_frame message (set_in_scope true (open_turn message self)))
      as (H1 & _ & H3 & H4).
    destruct (answer _ _) as [[r|e] self2]; cbn [fst snd] in *; simpl;
      rewrite H1, H3; tauto.
  - apply orb_false_iff in Hs as [Hs Hk].
    rewrite respond_refusal by done. simpl. split_and!; [done|congruence|auto].
Qed.

Lemma converse_in_scope turns self :
  session_in_scope self = true → session_in_scope (converse turns self) = true.
Proof.
  revert self. induction turns as [|[pick message] turns IH]; intros self H; simpl; [done|].
  apply IH. by apply respond_frame.
Qed.

Lemma converse_case_kept turns self :
  case_kept (current_case self) (current_case (converse turns self)).
Proof.
  revert self. induction turns as [|[pick message] turns IH]; intros self; simpl; [done|].
  etrans; [|apply IH].
  destruct (respond_frame pick message self) as (_ & _ & [-> | ->]);
    [done|apply update_kept].
Qed.

Lemma compose_not_refusal data case red_flags ranked :
  compose score data case red_flags ranked ≠ refusal.
Proof.
  unfold compose. cbn [app].
  set (more := cause_lines score ranked ++ _).
  unfold header_line, join, refusal.
  destruct more; simpl; discriminate.
Qed.

Lemma direct_lookup_not_refusal text reply :
  direct_lookup direct_groups text = Some reply → reply ≠ refusal.
Proof.
  unfold direct_groups, direct_lookup.
  repeat (destruct (any_in _ text); [intros [= <-]; discriminate|]).
  discriminate.
Qed.

Lemma greeting_not_refusal pick : _get_greeting_response pick ≠ refusal.
Proof.
  unfold _get_greeting_response.
  assert (pick mod 3 < 3) as H by (apply Nat.mod_upper_bound; lia).
  destruct (pick mod 3) as [|[|[|n]]]; [discriminate..|lia].
Qed.

(** Once the session is in scope no message is refused. *)
Lemma in_scope_never_refused pick message self :
  session_in_scope self = true →
  fst (respond pick message self) ≠ Returned refusal.
Proof.
  intros Hs. destruct (_is_greeting message) eqn:Hg.
  { rewrite respond_greeting by done. simpl. intros [= H]. by apply greeting_not_refusal in H. }
  rewrite respond_dispatch by (done || by rewrite Hs).
  set (self1 := set_in_scope true _).
  destruct (direct_lookup direct_groups (lower message)) as [reply|] eqn:Hd.
  - rewrite (answer_direct _ _ _ Hd). simpl. intros [= H].
    by apply direct_lookup_not_refusal in Hd.
  - rewrite (answer_analysis _ _ Hd), build_analysis_cases.
    destruct (rank _) as [[ranked|e] self2]; simpl; [|done].
    intros [= H]. by apply compose_not_refusal in H.
Qed.

(** A turn that reaches the case analysis: what it leaves behind,
    whether the ranker returned or raised. *)
Lemma respond_analysis_state pick message self :
  _is_greeting message = false →
  session_in_scope self || has_abdominal_keywords message = true →
  direct_lookup direct_groups (lower message) = None →
  let self' := snd (respond pick message self) in
  let entry := {| user := message; timestamp := None;
                  bot := match fst (respond pick message self) with
                         | Returned response => Some response
                         | Raised _ => None
                         end |} in
  medical_data self' = medical_data self ∧
  conversation_history self' = conversation_history self ++ [entry] ∧
  session_in_scope self' = true ∧
  current_case self'
  = _update_case_state (_extract_structured_facts message) (current_case self).
Proof.
  intros Hg Hs Hd. rewrite respond_dispatch by done.
  rewrite (answer_analysis _ _ Hd), build_analysis_cases.
  set (self1 := set_case _ _).
  destruct (rank_causes_frame encode similarity_row score_lt self1) as (H1 & H2 & H3 & H4).
  destruct (rank self1) as [[ranked|e] self2]; cbn [fst snd] in *.
  - cbn [set_history medical_data conversation_history session_in_scope current_case].
    rewrite H1, H2, H3, H4. subst self1. unfold open_turn. simpl.
    by rewrite set_last_bot_snoc.
  - by rewrite H1, H2, H3, H4.
Qed.

Lemma respond_direct pick message self reply :
  _is_greeting message = false →
  session_in_scope self || has_abdominal_keywords message = true →
  direct_lookup direct_groups (lower message) = Some reply →
  respond pick message self
  = (Returned reply, closed_turn message reply (set_in_scope true self)).
Proof.
  intros Hg Hs Hd. rewrite respond_dispatch by done.
  rewrite (answer_direct _ _ _ Hd). unfold open_turn, closed_turn. simpl.
  by rewrite set_last_bot_snoc.
Qed.

(** C5: the scope flag is sticky.  A turn never clears it, so it stays
    set through every later turn of a conversation; while it is set no
    message is answered with the refusal; and after "my stomach hurts"
    on a new session the flag is set and "tell me more" is not answered
    with the refusal, although on a new session it is. *)
Theorem scope_is_sticky :
  (∀ pick message self,
     session_in_scope self = true →
     session_in_scope (snd (respond pick message self)) = true) ∧
  (∀ turns self,
     session_in_scope self = true → session_in_scope (converse turns self) = true) ∧
  (∀ pick message self,
     session_in_scope self = true → fst (respond pick message self) ≠ Returned refusal) ∧
  (∀ data pick1 pick2,
     let self1 := snd (respond pick1 "my stomach hurts" (new_bot data)) in
     session_in_scope self1 = true ∧
     fst (respond pick2 "tell me more" self1) ≠ Returned refusal ∧
     fst (respond pick2 "tell me more" (new_bot data)) = Returned refusal).
Proof.
  split_and!.
  - intros pick message self. apply respond_frame.
  - apply converse_in_scope.
  - apply in_scope_never_refused.
  - intros data pick1 pick2 self1.
    assert (session_in_scope self1 = true) as Hs.
    { subst self1.
      apply (respond_analysis_state pick1 "my stomach hurts" (new_bot data));
        vm_compute; reflexivity. }
    split_and!; [done|by apply in_scope_never_refused|].
    rewrite respond_refusal; [done|vm_compute; reflexivity..].
Qed.

(** [get_response] is the turn at the greeting test of the model. *)
Lemma get_response_with_is_greeting :
  get_response_with vector score encode similarity_row score_lt _is_greeting = respond.
Proof. reflexivity. Qed.

Lemma respond_with_greeting is_greeting pick message self :
  is_greeting message = true →
  get_response_with vector score encode similarity_row score_lt is_greeting pick message self =
    (Returned (_get_greeting_response pick),
     closed_turn message (_get_greeting_response pick) self).
Proof.
  intros H. unfold get_response_with, mbind, M_bind, bind, modify, record_reply. rewrite H.
  unfold mbind, M_bind, bind, modify, ret, closed_turn; simpl.
  by rewrite set_last_bot_snoc.
Qed.

Lemma respond_with_refusal is_greeting pick message self :
  is_greeting message = false →
  session_in_scope self = false →
  has_abdominal_keywords message = false →
  get_response_with vector score encode similarity_row score_lt is_greeting pick message self
  = (Returned refusal, closed_turn message refusal self).
Proof.
  intros Hg Hs Hk.
  unfold get_response_with, mbind, M_bind, bind, modify, record_reply. rewrite Hg.
  assert (any_in scope_keywords (lower message) = false) as Hn.
  { destruct (any_in scope_keywords (lower message)) eqn:E; [|done].
    apply scope_keywords_abdominal in E. unfold has_abdominal_keywords in Hk. congruence. }
  unfold mbind, M_bind, bind, modify, get_self, ret, closed_turn, _is_out_of_scope_with.
  cbv beta iota. rewrite Hn, andb_false_r. cbv beta iota.
  change (session_in_scope (set_history ?h self)) with (session_in_scope self).
  rewrite Hk, Hs, Hg. cbn [orb negb set_history conversation_history].
  by rewrite set_last_bot_snoc.
Qed.

Lemma respond_with_dispatch is_greeting pick message self :
  is_greeting message = false →
  session_in_scope self || has_abdominal_keywords message = true →
  get_response_with vector score encode similarity_row score_lt is_greeting pick message self =
    match answer message (set_in_scope true (open_turn message self)) with
    | (Returned response, self') =>
        (Returned response,
         set_history (set_last_bot response (conversation_history self')) self')
    | (Raised e, self') => (Raised e, self')
    end.
Proof.
  intros Hg Hs.
  unfold get_response_with, mbind, M_bind, bind, modify, record_reply. rewrite Hg.
  unfold mbind, M_bind, bind, modify, get_self, ret, _is_out_of_scope_with.
  cbv beta iota. fold (open_turn message self). rewrite Hg, orb_false_r.
  change (session_in_scope (open_turn message self)) with (session_in_scope self).
  set (self1 := if negb (session_in_scope self) && _ then _ else open_turn message self).
  assert (has_abdominal_keywords message || session_in_scope self1 = true) as ->.
  { subst self1. destruct (session_in_scope self) eqn:E; simpl in *.
    - unfold open_turn. simpl. rewrite E. apply orb_true_r.
    - by rewrite Hs. }
  cbv beta iota. cbn [negb].
  assert (set_in_scope true self1 = set_in_scope true (open_turn message self)) as ->.
  { subst self1. by destruct (_ && _). }
  by destruct (answer _ _) as [[r|e] self'].
Qed.

(** C6: whatever the greeting test decides on other messages, a message
    that it does not take for a greeting and that has no word of the scope
    vocabulary, met by a session that is not in scope, is answered with the
    fixed refusal, and the case state is left as it was, field by field; the
    scope flag stays unset and the encoder is not called. *)
Theorem out_of_scope_refused (is_greeting : string → bool)
    (pick : nat) (message : string) (self : Bot) :
  is_greeting message = false →
  session_in_scope self = false →
  has_abdominal_keywords message = false →
  let turn := get_response_with vector score encode similarity_row score_lt is_greeting
                pick message self in
  let self' := snd turn in
  fst turn = Returned refusal ∧
  current_case self' = current_case self ∧
  onset (current_case self') = onset (current_case self) ∧
  duration (current_case self') = duration (current_case self) ∧
  location (current_case self') = location (current_case self) ∧
  severity (current_case self') = severity (current_case self) ∧
  associated_symptoms (current_case self') = associated_symptoms (current_case self) ∧
  session_in_scope self' = false ∧
  encode_calls self' = encode_calls self.
Proof.
  intros Hg Hs Hk turn self'. subst self' turn.
  rewrite respond_with_refusal by done. simpl. by rewrite Hs.
Qed.

(** C8: the keyword groups are tried in the order causes, symptoms,
    emergency, home remedy, and the first group with a word in the lowered
    message decides; its templated list is returned joined by line feeds
    and the bot is left untouched: no fact is extracted, the case state is
    not written and the encoder is not called.  For a turn of
    [get_response] that is in scope and not a greeting, the reply is that
    list and the case state is the one before the turn. *)
Theorem direct_lookup_priority (message : string) (self : Bot) :
  let text := lower message in
  (any_in cause_words text = true →
   answer message self = (Returned (join nl responses_causes), self)) ∧
  (any_in cause_words text = false → any_in symptom_words text = true →
   answer message self = (Returned (join nl responses_symptoms), self)) ∧
  (any_in cause_words text = false → any_in symptom_words text = false →
   any_in emergency_words text = true →
   answer message self = (Returned (join nl responses_when_to_seek_help), self)) ∧
  (any_in cause_words text = false → any_in symptom_words text = false →
   any_in emergency_words text = false → any_in home_words text = true →
   answer message self = (Returned (join nl responses_home_remedies), self)) ∧
  (∀ pick reply,
     _is_greeting message = false →
     session_in_scope self || has_abdominal_keywords message = true →
     direct_lookup direct_groups text = Some reply →
     fst (respond pick message self) = Returned reply ∧
     current_case (snd (respond pick message self)) = current_case self ∧
     encode_calls (snd (respond pick message self)) = encode_calls self).
Proof.
  intros text. split_and!.
  - intros H1. apply answer_direct. unfold direct_groups, direct_lookup.
    fold text. by rewrite H1.
  - intros H1 H2. apply answer_direct. unfold direct_groups, direct_lookup.
    fold text. by rewrite H1, H2.
  - intros H1 H2 H3. apply answer_direct. unfold direct_groups, direct_lookup.
    fold text. by rewrite H1, H2, H3.
  - intros H1 H2 H3 H4. apply answer_direct. unfold direct_groups, direct_lookup.
    fold text. by rewrite H1, H2, H3, H4.
  - intros pick reply Hg Hs Hd. by rewrite (respond_direct _ _ _ _ Hg Hs Hd).
Qed.

(** C10: the merge leaves a scalar as it was or writes the non-empty
    value the extracted facts hold for it, and the symptoms after the
    merge include the symptoms before it; so through one turn, and through
    any conversation, a scalar that held a value still holds one and no
    symptom is lost. *)
Theorem case_state_never_reset :
  (∀ facts case,
     let case' := _update_case_state facts case in
     scalar_merged (onset facts) (onset case) (onset case') ∧
     scalar_merged (duration facts) (duration case) (duration case') ∧
     scalar_merged (location facts) (location case) (location case') ∧
     scalar_merged (severity facts) (severity case) (severity case') ∧
     associated_symptoms case ⊆ associated_symptoms case') ∧
  (∀ pick message self,
     case_kept (current_case self) (current_case (snd (respond pick message self)))) ∧
  (∀ turns self,
     case_kept (current_case self) (current_case (converse turns self))).
Proof.
  split_and!.
  - intros facts case case'.
    destruct (update_scalars facts case) as (Ho & Hd & Hl & Hs).
    split_and!; [done..|]. subst case'. rewrite update_symptoms. set_solver.
  - intros pick message self. apply (converse_case_kept [(pick, message)]).
  - apply converse_case_kept.
Qed.


End TurnFacts.

(** ** Worked instances *)

Lemma rank_causes_at_most_three_witness :
  (∃ ranked self',
     _rank_causes nat nat stub_encode stub_similarity Nat.ltb (new_bot ten_cause_data)
     = (Returned ranked, self') ∧ length ranked ≤ 3) ∧
  causes (medical_data fresh_bot) = [] ∧
  _rank_causes nat nat stub_encode stub_similarity Nat.ltb fresh_bot = (Returned [], fresh_bot).
Proof.
  split_and!.
  - apply (rank_causes_at_most_three stub_encode stub_similarity Nat.ltb
             (new_bot ten_cause_data)).
    intros n batch. unfold stub_encode. eauto.
  - reflexivity.
  - apply (rank_causes_at_most_three stub_encode stub_similarity Nat.ltb fresh_bot).
    reflexivity.
Defined.

Lemma scope_is_sticky_witness :
  session_in_scope in_scope_bot = true ∧
  session_in_scope (snd (stub_respond "tell me more" in_scope_bot)) = true ∧
  fst (stub_respond "tell me more" in_scope_bot) ≠ Returned refusal.
Proof.
  destruct (scope_is_sticky stub_encode stub_similarity Nat.ltb) as (Hstep & _ & Hrefuse & _).
  split_and!;
    [reflexivity
    |apply (Hstep 0 "tell me more" in_scope_bot); reflexivity
    |apply (Hrefuse 0 "tell me more" in_scope_bot); reflexivity].
Defined.

Lemma out_of_scope_refused_witness :
  _is_greeting "what's the capital of France" = false ∧
  session_in_scope fresh_bot = false ∧
  has_abdominal_keywords "what's the capital of France" = false ∧
  fst (stub_respond "what's the capital of France" fresh_bot) = Returned refusal ∧
  current_case (snd (stub_respond "what's the capital of France" fresh_bot))
  = current_case fresh_bot.
Proof.
  split_and!; [vm_compute; reflexivity..| |];
    apply (out_of_scope_refused stub_encode stub_similarity Nat.ltb _is_greeting 0
             "what's the capital of France" fresh_bot);
    vm_compute; reflexivity.
Defined.

Lemma direct_lookup_priority_witness :
  any_in cause_words (lower "What causes these symptoms, doctor?") = true ∧
  _get_abdominal_pain_response nat nat stub_encode stub_similarity Nat.ltb
    "What causes these symptoms, doctor?" one_cause_bot
  = (Returned (join nl responses_causes), one_cause_bot) ∧
  _get_abdominal_pain_response nat nat stub_encode stub_similarity Nat.ltb
    "Is it urgent if the signs do not go away at home?" one_cause_bot
  = (Returned (join nl responses_symptoms), one_cause_bot) ∧
  _get_abdominal_pain_response nat nat stub_encode stub_similarity Nat.ltb
    "Should I go to the hospital or can I get help at home?" one_cause_bot
  = (Returned (join nl responses_when_to_seek_help), one_cause_bot) ∧
  _get_abdominal_pain_response nat nat stub_encode stub_similarity Nat.ltb
    "Is there any treatment for stomach pain?" one_cause_bot
  = (Returned (join nl responses_home_remedies), one_cause_bot) ∧
  current_case (snd (stub_respond "What causes severe stomach pain with fever?" one_cause_bot))
  = current_case one_cause_bot.
Proof.
  split_and!.
  - vm_compute; reflexivity.
  - apply (direct_lookup_priority stub_encode stub_similarity Nat.ltb
             "What causes these symptoms, doctor?" one_cause_bot).
    vm_compute; reflexivity.
  - apply (direct_lookup_priority stub_encode stub_similarity Nat.ltb
             "Is it urgent if the signs do not go away at home?" one_cause_bot);
      vm_compute; reflexivity.
  - apply (direct_lookup_priority stub_encode stub_similarity Nat.ltb
             "Should I go to the hospital or can I get help at home?" one_cause_bot);
      vm_compute; reflexivity.
  - apply (direct_lookup_priority stub_encode stub_similarity Nat.ltb
             "Is there any treatment for stomach pain?" one_cause_bot);
      vm_compute; reflexivity.
  - apply (direct_lookup_priority stub_encode stub_similarity Nat.ltb
             "What causes severe stomach pain with fever?" one_cause_bot)
      with (reply := join nl responses_causes);
      vm_compute; reflexivity.
Defined.



(** ** The blood rule *)

Lemma lower_ne_capitalised c s l : String c s ∉ map lower l ∨ is_upper c = false.
Proof.
  destruct (is_upper c) eqn:Hc; [left|by right].
  rewrite list_elem_of_In, in_map_iff. intros ([|a y] & Hy & _); [done|].
  simpl in Hy. injection Hy as <- _. by rewrite lower_char_not_upper in Hc.
Qed.

(** The rule as the code has it: the flag is raised exactly when
    "vomiting" is a recorded symptom and "blood" occurs in the lowered case
    summary; the message of the turn is not consulted. *)
Lemma vomiting_blood_rule data case :
  "Vomiting blood" ∈ _red_flag_check data case ↔
  "vomiting" ∈ associated_symptoms case ∧
  contains "blood" (lower (_case_summary_text case)) = true.
Proof.
  rewrite elem_of_red_flag_check. split.
  - intros [[Hin _]|Hin].
    + by destruct (lower_ne_capitalised "V" "omiting blood" (emergency_symptoms data)).
    + unfold explicit_flags in Hin.
      case_bool_decide; case_bool_decide;
        destruct (bool_decide ("vomiting" ∈ associated_symptoms case)) eqn:Hv;
        destruct (contains "blood" _) eqn:Hb; simpl in Hin;
        try (by apply bool_decide_eq_true in Hv);
        repeat (apply elem_of_cons in Hin as [Hin|Hin]; [discriminate Hin|]);
        by apply elem_of_nil in Hin.
  - intros [Hv Hb]. right. unfold explicit_flags.
    rewrite (bool_decide_eq_true_2 _ Hv), Hb. simpl. set_solver.
Qed.

(** ** Matches lie in the language of their pattern *)

Section RegexFacts.

Lemma string_length_app (a b : string) :
  String.length (a +:+ b) = String.length a + String.length b.
Proof. induction a as [|x a IH]; [done|]. rewrite string_app_cons. simpl. by rewrite IH. Qed.

Lemma substring_prefix (c r : string) :
  String.substring 0 (String.length c) (c +:+ r) = c.
Proof.
  induction c as [|x c IH].
  - rewrite string_app_nil_l. by destruct r.
  - rewrite string_app_cons. simpl. by rewrite IH.
Qed.

Lemma eat_sound lit p q : eat lit p = Some q → rest p = lit +:+ rest q.
Proof.
  revert p. induction lit as [|a lit IH]; intros [before s]; simpl.
  - by intros [= <-].
  - destruct s as [|b s]; [done|]. case_bool_decide as Hab; [|done].
    intros H. apply IH in H. simpl in H. by rewrite Hab, H, string_app_cons.
Qed.

Lemma eat_class_sound f p q :
  q ∈ eat_class f p → ∃ a, f a = true ∧ rest p = String a "" +:+ rest q.
Proof.
  unfold eat_class. destruct (rest p) as [|c s]; [by intros ?%elem_of_nil|].
  destruct (f c) eqn:Hc; [|by intros ?%elem_of_nil].
  intros ->%list_elem_of_singleton. eauto.
Qed.

Lemma star_iter_sound (step : pos → list pos) (L : string → Prop) :
  (∀ p q, q ∈ step p → ∃ c, rest p = c +:+ rest q ∧ L c) →
  ∀ fuel p q, q ∈ star_iter step fuel p →
    ∃ l, rest p = foldr String.append "" l +:+ rest q ∧ Forall L l.
Proof.
  intros Hstep. induction fuel as [|fuel IH]; intros p q; simpl.
  - intros ->%list_elem_of_singleton. by exists [].
  - rewrite elem_of_app, list_elem_of_bind, list_elem_of_singleton.
    intros [(p' & Hq & Hp')| ->]; [|by exists []].
    destruct (_ <? _)%nat; [|by apply elem_of_nil in Hq].
    destruct (Hstep _ _ Hp') as (c & Hc & HL).
    destruct (IH _ _ Hq) as (l & Hl & HLl).
    exists (c :: l). split; [|by constructor].
    rewrite Hc, Hl. cbn [foldr]. by rewrite string_app_assoc.
Qed.

Lemma matches_sound r p q :
  q ∈ matches r p → ∃ c, rest p = c +:+ rest q ∧ lang r c.
Proof.
  revert p q. induction r as [s| | | |r1 IH1 r2 IH2|r1 IH1 r2 IH2|r1 IH1]; intros p q; simpl.
  - destruct (eat s p) as [q'|] eqn:He; [|by intros ?%elem_of_nil].
    intros ->%list_elem_of_singleton. exists s. split; [by apply eat_sound|done].
  - intros (a & Ha & Hp)%eat_class_sound. exists (String a ""). eauto.
  - intros (a & Ha & Hp)%eat_class_sound. exists (String a ""). eauto.
  - destruct (at_boundary p); [|by intros ?%elem_of_nil].
    intros ->%list_elem_of_singleton. by exists "".
  - rewrite list_elem_of_bind. intros (p' & Hq & Hp').
    destruct (IH1 _ _ Hp') as (c1 & Hc1 & HL1).
    destruct (IH2 _ _ Hq) as (c2 & Hc2 & HL2).
    exists (c1 +:+ c2). split; [by rewrite Hc1, Hc2, string_app_assoc|eauto].
  - rewrite elem_of_app. intros [H|H].
    + destruct (IH1 _ _ H) as (c & Hc & HL). eauto.
    + destruct (IH2 _ _ H) as (c & Hc & HL). eauto.
  - intros H. destruct (star_iter_sound (matches r1) (lang r1) IH1 _ _ _ H) as (l & Hl & HL).
    eauto.
Qed.

Lemma match_here_sound r p m : match_here r p = Some m → lang r m.
Proof.
  unfold match_here. destruct (matches r p) as [|q qs] eqn:Hm; [done|].
  intros [= <-].
  destruct (matches_sound r p q) as (c & Hc & HL); [rewrite Hm; left|].
  rewrite Hc, string_length_app.
  replace (String.length c + String.length (rest q) - String.length (rest q))
    with (String.length c) by lia.
  by rewrite substring_prefix.
Qed.

Lemma search_sound r s m : search r s = Some m → lang r m.
Proof.
  unfold search. generalize (@None ascii). revert m.
  induction s as [|c s IH]; intros m before; simpl.
  - destruct (match_here r _) as [m'|] eqn:Hm; [|done].
    intros [= <-]. by eapply match_here_sound.
  - destruct (match_here r _) as [m'|] eqn:Hm.
    + intros [= <-]. by eapply match_here_sound.
    + apply IH.
Qed.

End RegexFacts.

(** ** No stored value holds a double "o" *)

Section DoubleO.

Lemma double_o_cons a t : double_o t = true → double_o (String a t) = true.
Proof. destruct t as [|b t]; [done|]. intros H. cbn [double_o] in *. rewrite H. apply orb_true_r. Qed.

Lemma blood_double_o s : contains "blood" (lower s) = true → double_o s = true.
Proof.
  induction s as [|c s IH]; [done|].
  cbn [lower contains]. rewrite orb_true_iff. intros [H|H].
  - destruct s as [|c1 [|c2 [|c3 [|c4 s]]]]; cbn in H;
      rewrite ?andb_false_r in H; try discriminate H.
    rewrite !andb_true_iff, !bool_decide_eq_true in H.
    destruct H as (_ & _ & H2 & H3 & _).
    do 2 apply double_o_cons. cbn [double_o]. unfold is_o.
    rewrite <- H2, <- H3. reflexivity.
  - apply double_o_cons. by apply IH.
Qed.

Lemma starts_o_app a b :
  starts_o (a +:+ b) = match a with EmptyString => starts_o b | String _ _ => starts_o a end.
Proof. by destruct a. Qed.

Lemma double_o_step a b t :
  double_o (String a (String b t)) = (is_o a && is_o b) || double_o (String b t).
Proof. reflexivity. Qed.

Lemma ends_o_step a b t : ends_o (String a (String b t)) = ends_o (String b t).
Proof. reflexivity. Qed.

Lemma double_o_app a b :
  double_o (a +:+ b) = double_o a || double_o b || (ends_o a && starts_o b).
Proof.
  induction a as [|x a IH]; [by rewrite string_app_nil_l, orb_false_r|].
  rewrite string_app_cons. destruct a as [|y a].
  - rewrite string_app_nil_l. destruct b as [|z b]; [cbn; by rewrite andb_false_r|].
    rewrite double_o_step. cbn [double_o ends_o starts_o orb]. apply orb_comm.
  - rewrite string_app_cons in *. rewrite !double_o_step, ends_o_step, IH.
    by rewrite !orb_assoc.
Qed.

Lemma all_chars_not_o f s :
  (∀ c, f c = true → is_o c = false) →
  all_chars f s = true →
  double_o s = false ∧ starts_o s = false ∧ ends_o s = false.
Proof.
  intros Hf. induction s as [|a s IH]; [done|].
  cbn [all_chars]. rewrite andb_true_iff. intros [Ha Hs].
  destruct (IH Hs) as (H1 & H2 & H3). split_and!.
  - destruct s as [|b s]; [done|]. by rewrite double_o_step, (Hf a Ha), H1.
  - cbn. by apply Hf.
  - destruct s as [|b s]; [|done]. cbn. by apply Hf.
Qed.

Lemma digit_not_o c : is_digit c = true → is_o c = false.
Proof. destruct c as [[] [] [] [] [] [] [] []]; vm_compute; done. Qed.

Lemma space_not_o c : is_space c = true → is_o c = false.
Proof. destruct c as [[] [] [] [] [] [] [] []]; vm_compute; done. Qed.

Lemma all_chars_app f a b : all_chars f (a +:+ b) = all_chars f a && all_chars f b.
Proof.
  induction a as [|x a IH]; [done|].
  rewrite string_app_cons. cbn [all_chars]. by rewrite IH, andb_assoc.
Qed.

Lemma all_chars_singles f l :
  Forall (fun s => ∃ a, f a = true ∧ s = String a "") l →
  all_chars f (foldr String.append "" l) = true.
Proof.
  induction 1 as [|s l (a & Ha & ->) _ IH]; [done|].
  cbn [foldr]. rewrite all_chars_app, IH. cbn. by rewrite Ha.
Qed.

(** The text covered by a match of the duration pattern. *)
Lemma duration_shape m :
  lang duration_re m →
  ∃ count blanks unit_word,
    m = count +:+ blanks +:+ unit_word ∧
    (all_chars is_digit count = true ∨ count ∈ ["one"; "two"; "three"; "four"; "five"]) ∧
    all_chars is_space blanks = true ∧
    unit_word ∈ ["hour"; "hours"; "day"; "days"].
Proof.
  intros (b1 & t1 & -> & -> & count & t2 & -> & Hcount & blanks & t3 & -> & Hblanks &
          unit_word & t4 & -> & Hunit & b2 & e & -> & -> & ->).
  exists count, blanks, unit_word. split_and!.
  - by rewrite string_app_nil_l, !string_app_nil_r.
  - cbn in Hcount.
    destruct Hcount as [[[[[(d & ds & -> & (a & Ha & ->) & (l & -> & Hl))| ->]| ->]| ->]| ->]| ->];
      [left|right; set_solver..].
    rewrite all_chars_app, (all_chars_singles is_digit l Hl). cbn. by rewrite Ha.
  - destruct Hblanks as (l & -> & Hl). by apply all_chars_singles.
  - cbn in Hunit. destruct Hunit as [[[->| ->]| ->]| ->]; set_solver.
Qed.

Lemma duration_clean text m : search duration_re text = Some m → double_o m = false.
Proof.
  intros (count & blanks & unit_word & -> & Hcount & Hblanks & Hunit)%search_sound%duration_shape.
  destruct (all_chars_not_o is_space blanks space_not_o Hblanks) as (Hb1 & Hb2 & Hb3).
  assert (double_o unit_word = false ∧ starts_o unit_word = false) as [Hu1 Hu2].
  { repeat (apply elem_of_cons in Hunit as [->|Hunit]; [done|]). by apply elem_of_nil in Hunit. }
  assert (double_o (blanks +:+ unit_word) = false) as Htail.
  { by rewrite double_o_app, Hb1, Hu1, Hb3. }
  assert (starts_o (blanks +:+ unit_word) = false) as Hstart.
  { rewrite starts_o_app. by destruct blanks. }
  rewrite double_o_app, Htail, Hstart, andb_false_r, !orb_false_r.
  destruct Hcount as [Hc|Hc].
  - by apply (all_chars_not_o is_digit count digit_not_o).
  - repeat (apply elem_of_cons in Hc as [->|Hc]; [done|]). by apply elem_of_nil in Hc.
Qed.

End DoubleO.

(** ** The summary of a reachable case never holds "blood" *)

Section BloodRule.

Context {vector score : Type}.
Context (encode : nat → list string → option (list vector)).
Context (similarity_row : list vector → list vector → list score).
Context (score_lt : score → score → bool).

Local Abbreviation respond := (get_response vector score encode similarity_row score_lt).
Local Abbreviation converse := (run vector score encode similarity_row score_lt).

Lemma assoc_terms_clean x : x ∈ assoc_terms → double_o x = false ∧ starts_o x = false.
Proof.
  unfold assoc_terms. intros H.
  repeat (apply elem_of_cons in H as [->|H]; [done|]). by apply elem_of_nil in H.
Qed.

Lemma fold_symptoms_terms text terms (acc : gset string) x :
  x ∈ foldl (fun acc term => if contains term text then acc ∪ {[ term ]} else acc) acc terms →
  x ∈ acc ∨ x ∈ terms.
Proof.
  revert acc. induction terms as [|t terms IH]; intros acc; cbn [foldl]; [by left|].
  intros [H|H]%IH; [|right; set_solver].
  destruct (contains t text); set_solver.
Qed.

Lemma extract_symptoms_terms text x : x ∈ extract_symptoms text → x ∈ assoc_terms.
Proof.
  unfold extract_symptoms.
  assert (∀ y, y ∈ foldl (fun acc term => if contains term text then acc ∪ {[ term ]} else acc)
                       (∅ : gset string) assoc_terms → y ∈ assoc_terms) as Hfold.
  { intros y [Hy|Hy]%fold_symptoms_terms; [set_solver|done]. }
  destruct (_ && _); [|apply Hfold].
  rewrite elem_of_union, elem_of_singleton. intros [H| ->]; [by apply Hfold|].
  unfold assoc_terms. set_solver.
Qed.

Lemma extract_clean message : case_clean (_extract_structured_facts message).
Proof.
  unfold case_clean, _extract_structured_facts. cbv zeta.
  cbn [onset duration location severity associated_symptoms]. split_and!.
  - by destruct (found onset_yesterday_re (lower message)),
         (found onset_today_re (lower message)).
  - destruct (search duration_re (lower message)) as [m|] eqn:Hm; [|done].
    by eapply duration_clean.
  - unfold location_map, extract_location.
    repeat (destruct (any_in _ (lower message)); [done|]). done.
  - unfold extract_severity.
    repeat (destruct (contains _ (lower message)); try done).
  - apply extract_symptoms_terms.
Qed.

Lemma update_clean facts case :
  case_clean facts → case_clean case → case_clean (_update_case_state facts case).
Proof.
  intros (F1 & F2 & F3 & F4 & F5) (C1 & C2 & C3 & C4 & C5).
  unfold case_clean. rewrite update_symptoms. cbn [_update_case_state onset duration location severity].
  split_and!.
  - by destruct (truthy (onset facts)).
  - by destruct (truthy (duration facts)).
  - by destruct (truthy (location facts)).
  - by destruct (truthy (severity facts)).
  - intros x [H|H]%elem_of_union; auto.
Qed.

Lemma converse_clean turns self :
  case_clean (current_case self) → case_clean (current_case (converse turns self)).
Proof.
  revert self. induction turns as [|[pick message] turns IH]; intros self H; [done|].
  cbn [run]. apply IH.
  destruct (respond_frame encode similarity_row score_lt pick message self)
    as (_ & _ & [-> | ->]); [done|].
  apply update_clean; [apply extract_clean|done].
Qed.

Lemma double_o_join sep parts :
  sep ≠ "" → double_o sep = false → starts_o sep = false → ends_o sep = false →
  Forall (fun s => double_o s = false) parts →
  double_o (join sep parts) = false.
Proof.
  intros Hne Hd Hs He. induction 1 as [|x l Hx Hl IH]; [done|].
  destruct l as [|y l]; [done|].
  change (join sep (x :: y :: l)) with (x +:+ sep +:+ join sep (y :: l)).
  assert (starts_o (sep +:+ join sep (y :: l)) = false) as Hstart.
  { rewrite starts_o_app. by destruct sep. }
  rewrite double_o_app, Hx, Hstart, andb_false_r, !orb_false_r.
  by rewrite double_o_app, Hd, IH, He.
Qed.

Lemma labelled_clean label v :
  double_o label = false → ends_o label = false →
  clean v → double_o (label +:+ field_text v) = false.
Proof.
  intros Hl He Hv. rewrite double_o_app, Hl, He. destruct v as [s|]; [|done].
  simpl in *. by rewrite Hv.
Qed.

Lemma summary_clean case : case_clean case → double_o (_case_summary_text case) = false.
Proof.
  intros (C1 & C2 & C3 & C4 & C5).
  assert (Forall (fun s => double_o s = false) (summary_parts case)) as Hparts.
  { unfold summary_parts. rewrite !Forall_app. split_and!.
    - destruct (truthy (onset case)); [|done]. constructor; [|done]. by apply labelled_clean.
    - destruct (truthy (duration case)); [|done]. constructor; [|done]. by apply labelled_clean.
    - destruct (truthy (location case)); [|done]. constructor; [|done]. by apply labelled_clean.
    - destruct (truthy (severity case)); [|done]. constructor; [|done]. by apply labelled_clean.
    - case_bool_decide; [|done]. constructor; [|done].
      rewrite double_o_app. change (double_o "symptoms ") with false.
      change (ends_o "symptoms ") with false. cbn [orb andb]. rewrite orb_false_r.
      apply double_o_join; [done..|].
      apply Forall_forall. intros x Hx. apply assoc_terms_clean, C5.
      by apply sorted_spec. }
  unfold _case_summary_text. destruct (summary_parts case) as [|part parts] eqn:E; [done|].
  by apply double_o_join.
Qed.

(** From a new session, whatever is said, the blood rule never fires. *)
Lemma vomiting_blood_unreachable data turns :
  let self := converse turns (new_bot data) in
  "Vomiting blood" ∉ _red_flag_check (medical_data self) (current_case self).
Proof.
  intros self. rewrite vomiting_blood_rule. intros [_ Hblood].
  apply blood_double_o in Hblood. rewrite summary_clean in Hblood; [done|].
  apply converse_clean. unfold case_clean. simpl. split_and!; [done..|set_solver].
Qed.

End BloodRule.

(** C2, at the failing input and beyond: on a new session the message "my
    stomach hurts and I am vomiting blood" records the symptom "vomiting"
    and holds the word "blood", yet the red-flag check run on the resulting
    case does not raise "Vomiting blood", whatever the knowledge document
    and the encoder are: the text it searches is the case summary, here
    "symptoms vomiting", not the message.  No conversation started on a new
    session ever gets the flag raised. *)
Theorem vomiting_blood_not_flagged {vector score : Type}
    (encode : nat → list string → option (list vector))
    (similarity_row : list vector → list vector → list score)
    (score_lt : score → score → bool) (data : MedicalData) :
  (∀ pick,
     let message := "my stomach hurts and I am vomiting blood" in
     let self' :=
       snd (get_response vector score encode similarity_row score_lt pick message
              (new_bot data)) in
     "vomiting" ∈ associated_symptoms (current_case self') ∧
     contains "blood" message = true ∧
     _case_summary_text (current_case self') = "symptoms vomiting" ∧
     "Vomiting blood" ∉ _red_flag_check (medical_data self') (current_case self')) ∧
  (∀ turns,
     let self := run vector score encode similarity_row score_lt turns (new_bot data) in
     "Vomiting blood" ∉ _red_flag_check (medical_data self) (current_case self)).
Proof.
  split; [|apply vomiting_blood_unreachable].
  intros pick message self'.
  destruct (respond_analysis_state encode similarity_row score_lt pick message (new_bot data))
    as (_ & _ & _ & Hcase); [vm_compute; reflexivity..|].
  fold self' in Hcase.
  assert (_case_summary_text (current_case self') = "symptoms vomiting") as Hsum.
  { rewrite Hcase. vm_compute. reflexivity. }
  split_and!.
  - rewrite Hcase.
    apply (bool_decide_unpack ("vomiting" ∈ associated_symptoms _)). vm_compute. exact I.
  - reflexivity.
  - exact Hsum.
  - rewrite vomiting_blood_rule, Hsum. intros [_ H]. vm_compute in H. discriminate H.
Qed.

(** * Further properties of the code *)

(** ** The turn: history, scope gate, greetings, encoder calls *)

Section TurnExtras.

Context {vector score : Type}.
Context (encode : nat → list string → option (list vector)).
Context (similarity_row : list vector → list vector → list score).
Context (score_lt : score → score → bool).

Local Abbreviation rank := (_rank_causes vector score encode similarity_row score_lt).
Local Abbreviation answer :=
  (_get_abdominal_pain_response vector score encode similarity_row score_lt).
Local Abbreviation respond := (get_response vector score encode similarity_row score_lt).
Local Abbreviation converse := (run vector score encode similarity_row score_lt).

(** The calls one run of the ranker adds to the trace. *)
Lemma rank_causes_trace self :
  let case_text := _case_summary_text (current_case self) in
  let cause_texts := map cause_text (causes (medical_data self)) in
  ∃ new,
    encode_calls (snd (rank self)) = encode_calls self ++ new ∧
    (new = [] ∧ causes (medical_data self) = [] ∨
     new = [[case_text]] ∧ fst (rank self) = Raised EmbeddingProviderError ∨
     new = [[case_text]; cause_texts] ∧ causes (medical_data self) ≠ []).
Proof.
  intros case_text cause_texts.
  destruct (decide (causes (medical_data self) = [])) as [H|H].
  - rewrite rank_causes_empty by done. exists []. rewrite app_nil_r. auto.
  - rewrite rank_causes_calls by done. fold case_text cause_texts.
    destruct (encode _ [case_text]) as [v1|].
    + exists [[case_text]; cause_texts].
      destruct (encode (S _) cause_texts); simpl; rewrite <- app_assoc; auto.
    + exists [[case_text]]. simpl. auto.
Qed.

Lemma answer_trace message self :
  let self' := snd (answer message self) in
  let case_text := _case_summary_text (current_case self') in
  let cause_texts := map cause_text (causes (medical_data self)) in
  ∃ new,
    encode_calls self' = encode_calls self ++ new ∧
    (new = [] ∨ new = [[case_text]] ∨ new = [[case_text]; cause_texts]) ∧
    (new ≠ [] →
     direct_lookup direct_groups (lower message) = None ∧ causes (medical_data self) ≠ []).
Proof.
  intros self' case_text cause_texts. subst self' case_text.
  destruct (direct_lookup direct_groups (lower message)) as [reply|] eqn:Hd.
  - rewrite (answer_direct _ _ _ _ _ _ Hd). exists []. simpl. rewrite app_nil_r.
    split_and!; [done|by left|done].
  - rewrite (answer_analysis _ _ _ _ _ Hd), build_analysis_cases.
    set (self1 := set_case _ self).
    destruct (rank_causes_trace self1) as (new & Hnew & Hcases).
    destruct (rank_causes_frame encode similarity_row score_lt self1) as (_ & _ & _ & Hc).
    exists new.
    assert (current_case (snd (let (o, s) := rank self1 in
              match o with
              | Returned ranked =>
                  (Returned (compose score (medical_data self1) (current_case self1)
                     (_red_flag_check (medical_data self1) (current_case self1)) ranked), s)
              | Raised e => (Raised e, s)
              end)) = current_case self1 ∧
            encode_calls (snd (let (o, s) := rank self1 in
              match o with
              | Returned ranked =>
                  (Returned (compose score (medical_data self1) (current_case self1)
                     (_red_flag_check (medical_data self1) (current_case self1)) ranked), s)
              | Raised e => (Raised e, s)
              end)) = encode_calls (snd (rank self1))) as [-> ->].
    { by destruct (rank self1) as [[ranked|e] s]. }
    split_and!; [done| |].
    + destruct Hcases as [[-> _]|[[-> _]|[-> _]]]; auto.
    + intros Hne. split; [done|].
      destruct Hcases as [[-> _]|[[-> Hr]|[_ ?]]]; [done| |done].
      intros Hempty. by rewrite rank_causes_empty in Hr.
Qed.

Lemma dispatch_never_refused pick message self :
  _is_greeting message = false →
  session_in_scope self || has_abdominal_keywords message = true →
  fst (respond pick message self) ≠ Returned refusal.
Proof.
  intros Hg Hs. rewrite respond_dispatch by done.
  set (self1 := set_in_scope true _).
  destruct (direct_lookup direct_groups (lower message)) as [reply|] eqn:Hd.
  - rewrite (answer_direct _ _ _ _ _ _ Hd). simpl. intros [= H].
    by apply direct_lookup_not_refusal in Hd.
  - rewrite (answer_analysis _ _ _ _ _ Hd), build_analysis_cases.
    destruct (rank _) as [[ranked|e] self2]; simpl; [|done].
    intros [= H]. by apply compose_not_refusal in H.
Qed.

(** Every turn appends one entry to the history and touches no other. *)
Lemma respond_history pick message self :
  conversation_history (snd (respond pick message self))
  = conversation_history self ++ [entry_of message (fst (respond pick message self))].
Proof.
  destruct (_is_greeting message) eqn:Hg.
  { by rewrite respond_greeting. }
  destruct (session_in_scope self || has_abdominal_keywords message) eqn:Hs.
  - rewrite respond_dispatch by done.
    destruct (answer_frame encode similarity_row score_lt message
                (set_in_scope true (open_turn message self))) as (_ & Hh & _).
    destruct (answer _ _) as [[r|e] self2]; cbn [fst snd] in *.
    + cbn [set_history conversation_history]. rewrite Hh. unfold open_turn. simpl.
      by rewrite set_last_bot_snoc.
    + by rewrite Hh.
  - apply orb_false_iff in Hs as [Hs Hk]. by rewrite respond_refusal.
Qed.

Lemma converse_history turns self :
  ∃ entries,
    conversation_history (converse turns self) = conversation_history self ++ entries ∧
    map user entries = map snd turns.
Proof.
  revert self. induction turns as [|[pick message] turns IH]; intros self.
  - exists []. by rewrite app_nil_r.
  - cbn [run]. destruct (IH (snd (respond pick message self))) as (entries & Hh & Hu).
    exists (entry_of message (fst (respond pick message self)) :: entries).
    rewrite Hh, respond_history, <- app_assoc. split; [done|]. simpl. by rewrite Hu.
Qed.

(** X1: the history is append-only.  A turn appends exactly one entry, which
    holds the message and the reply returned (no reply when the turn
    raised), and leaves the earlier entries as they were; after a
    conversation the history is the old one followed by one entry per turn,
    in order. *)
Theorem history_append_only (turns : list (nat * string)) (self : Bot) :
  (∀ pick message,
     conversation_history (snd (respond pick message self))
     = conversation_history self ++ [entry_of message (fst (respond pick message self))]) ∧
  conversation_history self `prefix_of` conversation_history (converse turns self) ∧
  length (conversation_history (converse turns self))
  = length (conversation_history self) + length turns ∧
  map user (conversation_history (converse turns self))
  = map user (conversation_history self) ++ map snd turns.
Proof.
  destruct (converse_history turns self) as (entries & Hh & Hu).
  split_and!.
  - intros pick message. apply respond_history.
  - rewrite Hh. by exists entries.
  - rewrite Hh, length_app. f_equal.
    by rewrite <- (length_map user entries), Hu, length_map.
  - by rewrite Hh, map_app, Hu.
Qed.

Lemma dispatch_with_never_refused is_greeting pick message self :
  is_greeting message = false →
  session_in_scope self || has_abdominal_keywords message = true →
  fst (get_response_with vector score encode similarity_row score_lt is_greeting
         pick message self) ≠ Returned refusal.
Proof.
  intros Hg Hs. rewrite respond_with_dispatch by done.
  set (self1 := set_in_scope true _).
  destruct (direct_lookup direct_groups (lower message)) as [reply|] eqn:Hd.
  - rewrite (answer_direct _ _ _ _ _ _ Hd). simpl. intros [= H].
    by apply direct_lookup_not_refusal in Hd.
  - rewrite (answer_analysis _ _ _ _ _ Hd), build_analysis_cases.
    destruct (rank _) as [[ranked|e] self2]; simpl; [|done].
    intros [= H]. by apply compose_not_refusal in H.
Qed.

(** X2: whatever the greeting test is, the refusal is returned exactly for
    a message that it does not take for a greeting and that holds no word of
    the scope vocabulary, on a session that is not in scope. *)
Theorem refusal_exactly_out_of_scope (is_greeting : string → bool)
    (pick : nat) (message : string) (self : Bot) :
  fst (get_response_with vector score encode similarity_row score_lt is_greeting
         pick message self) = Returned refusal ↔
  is_greeting message = false ∧
  session_in_scope self = false ∧
  has_abdominal_keywords message = false.
Proof.
  split.
  - intros Hr. destruct (is_greeting message) eqn:Hg.
    { rewrite respond_with_greeting in Hr by done. simpl in Hr. injection Hr as Hr.
      by apply greeting_not_refusal in Hr. }
    destruct (session_in_scope self || has_abdominal_keywords message) eqn:Hs.
    + by apply dispatch_with_never_refused in Hr.
    + by apply orb_false_iff in Hs as [-> ->].
  - intros (Hg & Hs & Hk). by rewrite respond_with_refusal.
Qed.

(** X3: whatever the greeting test is, after a turn the session is in
    scope exactly when it was before, or the message is not taken for a
    greeting and holds a word of the scope vocabulary. *)
Theorem scope_flag_after_turn (is_greeting : string → bool)
    (pick : nat) (message : string) (self : Bot) :
  session_in_scope
    (snd (get_response_with vector score encode similarity_row score_lt is_greeting
            pick message self))
  = session_in_scope self || (negb (is_greeting message) && has_abdominal_keywords message).
Proof.
  destruct (is_greeting message) eqn:Hg.
  { rewrite respond_with_greeting by done. simpl. by rewrite orb_false_r. }
  destruct (session_in_scope self || has_abdominal_keywords message) eqn:Hs.
  - rewrite respond_with_dispatch by done. simpl. rewrite Hs.
    destruct (answer_frame encode similarity_row score_lt message
                (set_in_scope true (open_turn message self))) as (_ & _ & Hi & _).
    by destruct (answer _ _) as [[r|e] self2]; cbn [fst snd] in *; simpl; rewrite Hi.
  - simpl. rewrite Hs. apply orb_false_iff in Hs as [Hs Hk].
    by rewrite respond_with_refusal.
Qed.

(** X4: whatever the greeting test is, a message that it takes for a
    greeting is answered with one of the three fixed greetings whatever else
    the message says: no fact is extracted, the case state, the scope flag
    and the knowledge document stay as they were and the encoder is not
    called. *)
Theorem greeting_turn (is_greeting : string → bool)
    (pick : nat) (message : string) (self : Bot) :
  is_greeting message = true →
  let turn := get_response_with vector score encode similarity_row score_lt is_greeting
                pick message self in
  let self' := snd turn in
  (∃ greeting, greeting ∈ greetings ∧ fst turn = Returned greeting) ∧
  current_case self' = current_case self ∧
  session_in_scope self' = session_in_scope self ∧
  medical_data self' = medical_data self ∧
  encode_calls self' = encode_calls self.
Proof.
  intros Hg turn self'. subst self' turn.
  rewrite respond_with_greeting by done. simpl. split_and!; try done.
  exists (_get_greeting_response pick). split; [|done].
  unfold _get_greeting_response.
  assert (pick mod 3 < 3) as H by (apply Nat.mod_upper_bound; lia).
  destruct (pick mod 3) as [|[|[|n]]]; [set_solver..|lia].
Qed.

Lemma converse_medical_data self turns :
  medical_data (converse turns self) = medical_data self.
Proof.
  revert self. induction turns as [|[pick message] turns IH]; intros self; [done|].
  cbn [run]. rewrite IH. apply respond_frame.
Qed.


End TurnExtras.

(** ** The extractor *)

Section ExtractorExtras.

Lemma starts_with_spec a b : starts_with a b = true ↔ ∃ post, b = a +:+ post.
Proof.
  revert b. induction a as [|x a IH]; intros b.
  - split; [intros _; by exists b|done].
  - destruct b as [|y b]; cbn [starts_with].
    + split; [done|]. intros [post H]. by rewrite string_app_cons in H.
    + rewrite andb_true_iff, bool_decide_eq_true, IH. split.
      * intros [-> [post ->]]. by exists post.
      * intros [post H]. rewrite string_app_cons in H. injection H as -> ->. eauto.
Qed.

Lemma contains_spec a b : contains a b = true ↔ ∃ pre post, b = pre +:+ a +:+ post.
Proof.
  induction b as [|y b IH]; cbn [contains]; rewrite orb_true_iff, starts_with_spec.
  - split.
    + intros [[post H]|H]; [|done]. by exists "", post.
    + intros (pre & post & H). left. destruct pre; [by exists post|].
      by rewrite string_app_cons in H.
  - rewrite IH. split.
    + intros [[post H]|(pre & post & ->)]; [by exists "", post|].
      by exists (String y pre), post.
    + intros (pre & post & H). destruct pre as [|x pre].
      * left. by exists post.
      * right. rewrite string_app_cons in H. injection H as -> ->. eauto.
Qed.

Lemma contains_app m pre post : contains m (pre +:+ m +:+ post) = true.
Proof. apply contains_spec. eauto. Qed.

Lemma contains_trans a b c :
  contains a b = true → contains b c = true → contains a c = true.
Proof.
  rewrite !contains_spec. intros (p1 & q1 & ->) (p2 & q2 & ->).
  exists (p2 +:+ p1), (q1 +:+ q2). by rewrite !string_app_assoc.
Qed.

Lemma match_here_prefix r p m :
  match_here r p = Some m → ∃ post, rest p = m +:+ post.
Proof.
  unfold match_here. destruct (matches r p) as [|q qs] eqn:Hm; [done|].
  intros [= <-].
  destruct (matches_sound r p q) as (c & Hc & _); [rewrite Hm; left|].
  exists (rest q). rewrite Hc at 2. f_equal.
  rewrite Hc, string_length_app.
  replace (String.length c + String.length (rest q) - String.length (rest q))
    with (String.length c) by lia.
  by rewrite substring_prefix.
Qed.

(** What [re.search] reports is a piece of the subject. *)
Lemma search_contains r s m : search r s = Some m → contains m s = true.
Proof.
  unfold search. generalize (@None ascii). revert m.
  induction s as [|c s IH]; intros m before; cbn [search_from].
  - destruct (match_here r _) as [m'|] eqn:Hm; [|done]. intros [= <-].
    apply match_here_prefix in Hm as [post Hp]. cbn in Hp. rewrite Hp.
    apply (contains_app m' "" post).
  - destruct (match_here r _) as [m'|] eqn:Hm.
    + intros [= <-]. apply match_here_prefix in Hm as [post Hp]. cbn in Hp. rewrite Hp.
      apply (contains_app m' "" post).
    + intros H. apply IH in H. cbn [contains]. rewrite H. apply orb_true_r.
Qed.

Lemma duration_text_of_match m : lang duration_re m → duration_text m.
Proof.
  intros (b1 & t1 & -> & -> & count & t2 & -> & Hcount & blanks & t3 & -> & Hblanks &
          unit_word & t4 & -> & Hunit & b2 & e & -> & -> & ->).
  exists count, blanks, unit_word. split_and!.
  - by rewrite string_app_nil_l, !string_app_nil_r.
  - cbn in Hcount.
    destruct Hcount as [[[[[(d & ds & -> & (a & Ha & ->) & (l & -> & Hl))| ->]| ->]| ->]| ->]| ->];
      [left|right; set_solver..].
    split; [done|].
    rewrite all_chars_app, (all_chars_singles is_digit l Hl). cbn. by rewrite Ha.
  - destruct Hblanks as (l & -> & Hl). by apply all_chars_singles.
  - cbn in Hunit. destruct Hunit as [[[->| ->]| ->]| ->]; set_solver.
Qed.

Lemma nonempty_app_r a b : nonempty b = true → nonempty (a +:+ b) = true.
Proof. destruct a; [done|]. by rewrite string_app_cons. Qed.

Lemma duration_text_nonempty m : duration_text m → nonempty m = true.
Proof.
  intros (count & blanks & unit_word & -> & _ & _ & Hu).
  do 2 apply nonempty_app_r.
  repeat (apply elem_of_cons in Hu as [->|Hu]; [done|]). by apply elem_of_nil in Hu.
Qed.

(** X6: the duration the extractor stores for a message of ASCII
    characters is a piece of the lowered message, made of a count (digits,
    or a word from one to five), blanks and one of hour, hours, day, days; it
    is never the empty string. *)
Theorem duration_extracted (message m : string) :
  isascii message = true →
  duration (_extract_structured_facts message) = Some m →
  contains m (lower message) = true ∧ duration_text m ∧ nonempty m = true.
Proof.
  cbn [_extract_structured_facts duration]. intros _ H.
  assert (duration_text m) as Ht by (by apply duration_text_of_match, (search_sound _ _ _ H)).
  split_and!; [by apply search_contains in H|done|by apply duration_text_nonempty].
Qed.

Lemma extract_location_label m text l :
  extract_location m text = Some l → l ∈ map fst m.
Proof.
  induction m as [|[label pats] m IH]; [done|]. cbn [extract_location map fst].
  destruct (any_in pats text); [intros [= <-]; left|intros H; right; by apply IH].
Qed.

(** The first entry with a pattern in the text decides. *)
Lemma extract_location_first m text :
  match extract_location m text with
  | Some l =>
      ∃ before pats after,
        m = before ++ (l, pats) :: after ∧
        any_in pats text = true ∧
        Forall (fun entry => any_in (snd entry) text = false) before
  | None => Forall (fun entry => any_in (snd entry) text = false) m
  end.
Proof.
  induction m as [|[label pats] m IH]; [by constructor|].
  cbn [extract_location]. destruct (any_in pats text) eqn:Hp.
  - exists [], pats, m. by split_and!.
  - destruct (extract_location m text) as [l|].
    + destruct IH as (before & pats' & after & -> & Hhit & Hmiss).
      exists ((label, pats) :: before), pats', after. split_and!; [done..|by constructor].
    + by constructor.
Qed.

(** X7: the location is the label of the first entry of the location table
    one of whose patterns occurs in the lowered message, and it is unset
    exactly when no pattern of the table occurs. *)
Theorem location_first_hit (message : string) :
  let text := lower message in
  match location (_extract_structured_facts message) with
  | Some l =>
      ∃ before pats after,
        location_map = before ++ (l, pats) :: after ∧
        any_in pats text = true ∧
        Forall (fun entry => any_in (snd entry) text = false) before
  | None => Forall (fun entry => any_in (snd entry) text = false) location_map
  end.
Proof. apply extract_location_first. Qed.

Lemma fold_symptoms_spec text terms (acc : gset string) x :
  x ∈ foldl (fun acc term => if contains term text then acc ∪ {[ term ]} else acc) acc terms ↔
  x ∈ acc ∨ (x ∈ terms ∧ contains x text = true).
Proof.
  revert acc. induction terms as [|t terms IH]; intros acc; cbn [foldl].
  - split; [by left|]. intros [H|[H _]]; [done|]. by apply elem_of_nil in H.
  - rewrite IH, elem_of_cons. destruct (contains t text) eqn:Ht.
    + rewrite elem_of_union, elem_of_singleton. split.
      * intros [[H| ->]|[H1 H2]]; auto.
      * intros [H|[[->|H1] H2]]; auto.
    + split.
      * intros [H|[H1 H2]]; auto.
      * intros [H|[[->|H1] H2]]; auto. congruence.
Qed.


Lemma unset_or_truthy labels v :
  Forall (fun s => nonempty s = true) labels → unset_or labels v → is_Some v →
  truthy v = true.
Proof.
  intros Hl Hv [s ->]. cbn in *. by eapply Forall_forall in Hl.
Qed.

Lemma extract_in_vocabulary message : case_in_vocabulary (_extract_structured_facts message).
Proof.
  unfold case_in_vocabulary, _extract_structured_facts. cbv zeta.
  cbn [onset duration location severity associated_symptoms]. split_and!.
  - destruct (found onset_yesterday_re (lower message)),
      (found onset_today_re (lower message)); cbn; set_solver.
  - destruct (extract_location location_map (lower message)) as [l|] eqn:Hl; [|done].
    by apply extract_location_label in Hl.
  - unfold extract_severity, severity_labels.
    repeat (destruct (contains _ (lower message)); cbn; try set_solver).
  - intros m H. by apply duration_text_of_match, (search_sound _ _ _ H).
  - intros x Hx. by apply extract_symptoms_terms in Hx.
Qed.

(** X9: for every message of ASCII characters the extracted facts lie in
    the fixed vocabularies: the onset is unset, "today" or "yesterday", with
    "yesterday" whenever its pattern is found; the location is unset or one
    of the seven labels; the severity is unset or mild, moderate or severe;
    the duration is unset or a count with a unit; every symptom is a term of
    the symptom vocabulary; and an extracted scalar is never the empty
    string, so the merge always takes it. *)
Theorem extracted_facts_in_vocabulary (message : string) :
  isascii message = true →
  let facts := _extract_structured_facts message in
  case_in_vocabulary facts ∧
  (found onset_yesterday_re (lower message) = true → onset facts = Some "yesterday") ∧
  (is_Some (onset facts) → truthy (onset facts) = true) ∧
  (is_Some (duration facts) → truthy (duration facts) = true) ∧
  (is_Some (location facts) → truthy (location facts) = true) ∧
  (is_Some (severity facts) → truthy (severity facts) = true).
Proof.
  intros _ facts. pose proof (extract_in_vocabulary message) as Hv. fold facts in Hv.
  destruct Hv as (Ho & Hl & Hs & Hd & Ha). split_and!.
  - by split_and!.
  - subst facts. cbn [_extract_structured_facts onset]. by intros ->.
  - apply (unset_or_truthy ["today"; "yesterday"]); [|done]. by repeat constructor.
  - intros [m Hm]. rewrite Hm. apply (duration_text_nonempty m). by apply Hd.
  - apply (unset_or_truthy location_labels); [|done]. by repeat constructor.
  - apply (unset_or_truthy severity_labels); [|done]. by repeat constructor.
Qed.

Lemma update_in_vocabulary facts case :
  case_in_vocabulary facts → case_in_vocabulary case →
  case_in_vocabulary (_update_case_state facts case).
Proof.
  intros (F1 & F2 & F3 & F4 & F5) (C1 & C2 & C3 & C4 & C5).
  unfold case_in_vocabulary. rewrite update_symptoms.
  cbn [_update_case_state onset duration location severity]. split_and!.
  - by destruct (truthy (onset facts)).
  - by destruct (truthy (location facts)).
  - by destruct (truthy (severity facts)).
  - by destruct (truthy (duration facts)).
  - intros x [H|H]%elem_of_union; auto.
Qed.

(** X10: merging the same facts twice is merging them once; merging facts
    that hold nothing changes nothing; and after two merges a scalar is the
    later truthy value, the earlier one when the later facts have none, and
    otherwise what the case held, while the symptoms are the union of all
    three sets. *)
Theorem merge_algebra (facts1 facts2 case : CaseState) :
  _update_case_state facts1 (_update_case_state facts1 case)
  = _update_case_state facts1 case ∧
  _update_case_state empty_case case = case ∧
  (let merged := _update_case_state facts2 (_update_case_state facts1 case) in
   onset merged = (if truthy (onset facts2) then onset facts2
                   else if truthy (onset facts1) then onset facts1 else onset case) ∧
   duration merged = (if truthy (duration facts2) then duration facts2
                      else if truthy (duration facts1) then duration facts1
                      else duration case) ∧
   location merged = (if truthy (location facts2) then location facts2
                      else if truthy (location facts1) then location facts1
                      else location case) ∧
   severity merged = (if truthy (severity facts2) then severity facts2
                      else if truthy (severity facts1) then severity facts1
                      else severity case) ∧
   associated_symptoms merged
   = associated_symptoms case ∪ associated_symptoms facts1 ∪ associated_symptoms facts2).
Proof.
  split; [|split].
  - destruct facts1 as [o l s a d], case as [o' l' s' a' d'].
    unfold _update_case_state. cbn [onset location severity associated_symptoms duration].
    f_equal; try (by repeat case_match).
    case_bool_decide; [|done]. set_solver.
  - by destruct case as [o' l' s' a' d'].
  - intros merged. subst merged. rewrite !update_symptoms.
    cbn [_update_case_state onset duration location severity]. done.
Qed.

End ExtractorExtras.

(** ** The ranker: the best three, in descending order *)

Section RankerExtras.

Context {vector score : Type}.
Context (encode : nat → list string → option (list vector)).
Context (similarity_row : list vector → list vector → list score).
Context (score_lt : score → score → bool).

Local Abbreviation rank := (_rank_causes vector score encode similarity_row score_lt).
Local Abbreviation R := (@not_below Cause score score_lt).

Hypothesis lt_asym : ∀ a b, score_lt a b = true → score_lt b a = false.
Hypothesis ge_trans :
  ∀ a b c, score_lt a b = false → score_lt b c = false → score_lt a c = false.

Lemma insert_desc_sorted x l :
  StronglySorted R l → StronglySorted R (insert_desc score score_lt x l).
Proof.
  induction 1 as [|y l Hl IH Hy]; cbn [insert_desc]; [by repeat constructor|].
  destruct (score_lt (snd x) (snd y)) eqn:Hxy.
  - constructor; [done|].
    rewrite insert_desc_Permutation. constructor; [|done].
    by apply lt_asym.
  - constructor; [by constructor|]. constructor; [done|].
    eapply Forall_impl; [exact Hy|]. intros z Hz. by eapply ge_trans.
Qed.

Lemma sorted_desc_sorted l : StronglySorted R (sorted_desc score score_lt l).
Proof.
  induction l as [|x l IH]; cbn [sorted_desc foldr]; [constructor|].
  by apply insert_desc_sorted.
Qed.

(** X11: when the scores are compared by a strict weak order, what the
    ranker returns is the best three.  With no cause it returns nothing.
    Otherwise the encoder has answered both calls, and with the scores that
    the similarity routine gives for these answers, paired with the causes
    of the knowledge document in their order: the pairs returned together
    with the pairs left out are all these pairs, rearranged; the pairs
    returned are in descending order of score; no pair left out has a score
    above a pair returned; and three pairs are returned, or all of them when
    there are fewer. *)
Theorem ranked_best_three (self : Bot) (ranked : list (Cause * score)) (self' : Bot) :
  rank self = (Returned ranked, self') →
  let n := length (encode_calls self) in
  let case_text := _case_summary_text (current_case self) in
  let cause_texts := map cause_text (causes (medical_data self)) in
  (causes (medical_data self) = [] ∧ ranked = []) ∨
  (causes (medical_data self) ≠ [] ∧
   ∃ case_vec cause_vecs,
     encode n [case_text] = Some case_vec ∧
     encode (S n) cause_texts = Some cause_vecs ∧
     let pairs := zip (causes (medical_data self)) (similarity_row case_vec cause_vecs) in
     ∃ rest,
       ranked ++ rest ≡ₚ pairs ∧
       StronglySorted R ranked ∧
       (∀ x y, x ∈ ranked → y ∈ rest → score_lt (snd x) (snd y) = false) ∧
       length ranked = min 3 (length pairs)).
Proof.
  intros Hrank n case_text cause_texts.
  destruct (decide (causes (medical_data self) = [])) as [H|H].
  - left. rewrite rank_causes_empty in Hrank by done. by injection Hrank as <- _.
  - right. split; [done|]. rewrite rank_causes_calls in Hrank by done. cbv zeta in Hrank.
    fold n case_text cause_texts in Hrank.
    destruct (encode n [case_text]) as [v1|]; [|done].
    destruct (encode (S n) cause_texts) as [v2|]; [|done]. injection Hrank as <- _.
    exists v1, v2. split_and!; [done..|]. intros pairs.
    pose proof (sorted_desc_sorted pairs) as Hsorted.
    pose proof (sorted_desc_Permutation score_lt pairs) as Hperm.
    fold pairs. set (all := sorted_desc score score_lt pairs) in *.
    exists (drop 3 all). rewrite take_drop. split_and!.
    + done.
    + rewrite <- (take_drop 3 all) in Hsorted.
      by apply StronglySorted_app_1_l in Hsorted.
    + intros x y Hx Hy. rewrite <- (take_drop 3 all) in Hsorted.
      by apply (StronglySorted_app_1_elem_of R _ _ x y Hsorted).
    + by rewrite length_take, Hperm.
Qed.

End RankerExtras.

(** ** The red-flag list *)

Section RedFlagExtras.

Lemma fromkeys_sublist l : fromkeys l `sublist_of` l.
Proof.
  induction l as [|x l IH]; cbn [fromkeys]; [done|].
  apply sublist_skip. etrans; [apply sublist_filter|done].
Qed.

Lemma filter_id_not_in (x : string) (l : list string) :
  x ∉ l → filter (fun y => y ≠ x) l = l.
Proof.
  induction l as [|y l IH]; [done|]. rewrite not_elem_of_cons. intros [Hne Hl].
  rewrite filter_cons_True by done. by rewrite IH.
Qed.

Lemma fromkeys_NoDup l : NoDup l → fromkeys l = l.
Proof.
  induction 1 as [|x l Hx Hl IH]; cbn [fromkeys]; [done|].
  by rewrite IH, filter_id_not_in.
Qed.

Lemma fromkeys_nil l : fromkeys l = [] ↔ l = [].
Proof. by destruct l. Qed.

Lemma filter_nil_iff {A} (f : A → bool) l :
  List.filter f l = [] ↔ Forall (fun x => f x = false) l.
Proof.
  induction l as [|x l IH]; cbn [List.filter]; [by split; constructor|].
  destruct (f x) eqn:Hx.
  - split; [done|]. intros H. apply Forall_cons in H as [H _]. congruence.
  - rewrite IH. split; [by constructor|]. by intros [_ H]%Forall_cons.
Qed.

Lemma explicit_not_lowered x l :
  x ∈ map lower l →
  x ∈ ["Severe abdominal pain"; "Pain with fever"; "Vomiting blood"] → False.
Proof.
  intros Hx H3.
  apply elem_of_cons in H3 as [->|H3].
  { by destruct (lower_ne_capitalised "S" "evere abdominal pain" l). }
  apply elem_of_cons in H3 as [->|H3].
  { by destruct (lower_ne_capitalised "P" "ain with fever" l). }
  apply elem_of_cons in H3 as [->|H3].
  { by destruct (lower_ne_capitalised "V" "omiting blood" l). }
  by apply elem_of_nil in H3.
Qed.


End RedFlagExtras.

(** ** [fine_tune] and [str.split] *)

Section FineTuneExtras.

Lemma split_ws_words s : Forall is_word_text (split_ws s).
Proof.
  induction s as [|c s IH]; [constructor|]. cbn [split_ws].
  destruct (is_space c) eqn:Hc; [done|].
  destruct s as [|d s'].
  - repeat constructor. cbn. by rewrite Hc.
  - destruct (is_space d) eqn:Hd.
    + constructor; [|done]. split; [done|]. cbn. by rewrite Hc.
    + destruct (split_ws (String d s')) as [|w ws]; [repeat constructor; cbn; by rewrite Hc|].
      apply Forall_cons in IH as [[Hw1 Hw2] Hws]. constructor; [|done].
      split; [done|]. cbn [all_chars]. by rewrite Hc, Hw2.
Qed.

Lemma split_ws_word_then w tail :
  is_word_text w →
  match tail with EmptyString => True | String d _ => is_space d = true end →
  split_ws (w +:+ tail) = w :: split_ws tail.
Proof.
  intros [Hne Hw]. revert Hne Hw. induction w as [|c w IH]; [done|]. intros _ Hw Htail.
  cbn [all_chars] in Hw. apply andb_true_iff in Hw as [Hc Hw].
  apply negb_true_iff in Hc. rewrite string_app_cons. cbn [split_ws]. rewrite Hc.
  destruct w as [|c' w'].
  - rewrite string_app_nil_l. destruct tail as [|d tail]; [done|]. by rewrite Htail.
  - specialize (IH eq_refl Hw Htail). rewrite string_app_cons in *.
    cbn [all_chars] in Hw. apply andb_true_iff in Hw as [Hc' _].
    apply negb_true_iff in Hc'. by rewrite Hc', IH.
Qed.

(** X13: on an answer of ASCII characters [answer.split()] gives words:
    each piece is non-empty and holds no blank; and splitting words of ASCII
    characters that were joined by single spaces gives the words back. *)
Theorem split_words_round_trip (s : string) (ws : list string) :
  (isascii s = true → Forall is_word_text (split_ws s)) ∧
  (Forall (fun w => isascii w = true) ws → Forall is_word_text ws →
   split_ws (join " " ws) = ws).
Proof.
  split; [intros _; apply split_ws_words|]. intros _.
  induction 1 as [|w ws Hw Hws IH]; [done|].
  destruct ws as [|w' ws].
  - cbn [join String.concat]. rewrite <- (string_app_nil_r w) at 1.
    by rewrite split_ws_word_then.
  - change (join " " (w :: w' :: ws)) with (w +:+ String " " (join " " (w' :: ws))).
    rewrite split_ws_word_then by done.
    change (split_ws (String " " (join " " (w' :: ws)))) with (split_ws (join " " (w' :: ws))).
    by rewrite IH.
Qed.

Lemma fine_tune_step_spec kb data_point :
  let kb' := fine_tune_step kb data_point in
  Knowledge.symptom kb' = Knowledge.symptom kb ∧
  Knowledge.severity_indicators kb' = Knowledge.severity_indicators kb ∧
  Knowledge.causes kb' = Knowledge.causes kb ++ words_added asks_causes [data_point] ∧
  Knowledge.symptoms kb'
  = Knowledge.symptoms kb ++ words_added asks_symptoms_only [data_point].
Proof.
  unfold fine_tune_step, words_added, asks_causes, asks_symptoms_only.
  cbn [List.filter].
  destruct (contains "causes" (lower (question data_point)));
    [|destruct (contains "symptoms" (lower (question data_point)))];
    cbn; rewrite ?app_nil_r; done.
Qed.

Lemma words_added_app route l1 l2 :
  words_added route (l1 ++ l2) = words_added route l1 ++ words_added route l2.
Proof. unfold words_added. by rewrite List.filter_app, bind_app. Qed.

Lemma fine_tune_spec training_data kb :
  let kb' := fine_tune training_data kb in
  Knowledge.symptom kb' = Knowledge.symptom kb ∧
  Knowledge.severity_indicators kb' = Knowledge.severity_indicators kb ∧
  Knowledge.causes kb' = Knowledge.causes kb ++ words_added asks_causes training_data ∧
  Knowledge.symptoms kb'
  = Knowledge.symptoms kb ++ words_added asks_symptoms_only training_data.
Proof.
  revert kb. induction training_data as [|d l IH]; intros kb.
  - cbn. by rewrite !app_nil_r.
  - cbn [fine_tune foldl]. destruct (IH (fine_tune_step kb d)) as (H1 & H2 & H3 & H4).
    destruct (fine_tune_step_spec kb d) as (G1 & G2 & G3 & G4).
    unfold fine_tune in *. cbv zeta. rewrite H1, H2, H3, H4, G1, G2, G3, G4.
    rewrite <- !app_assoc, <- !words_added_app. done.
Qed.


End FineTuneExtras.

(** ** The HTTP handler *)

Section HandlerExtras.

Context {vector score : Type}.
Context (encode : nat → list string → option (list vector)).
Context (similarity_row : list vector → list vector → list score).
Context (score_lt : score → score → bool).

Local Abbreviation respond := (get_response vector score encode similarity_row score_lt).
Local Abbreviation converse := (run vector score encode similarity_row score_lt).
Local Abbreviation handle := (chat vector score encode similarity_row score_lt).
Local Abbreviation handle_all := (serve vector score encode similarity_row score_lt).

Lemma chat_cases pick body chatbot :
  match turn_of (pick, body) with
  | Some (pick', message) =>
      handle pick body chatbot
      = (match fst (respond pick' message chatbot) with
         | Returned response => Response response
         | Raised e => InternalError (BotError e)
         end,
         snd (respond pick' message chatbot))
  | None =>
      handle pick body chatbot
      = (match body with NoJson => InternalError BodyError | JsonObject _ => MessageRequired end,
         chatbot)
  end.
Proof.
  unfold turn_of, chat. cbn [fst snd]. destruct body as [|[message|]]; [done| |done].
  change (default "" (Some message)) with message.
  destruct (nonempty message); cbn [negb]; [|done].
  by destruct (get_response _ _ _ _ _ pick message chatbot) as [[r|e] chatbot'].
Qed.

(** X15: a request without a JSON body is answered with status 500 and
    one whose message is missing or empty with status 400, and neither
    reaches the bot, which is left as it was.  A reply with status 200
    carries the response of the turn, which is then the reply recorded in
    the last entry of the history; a reply with status 500 to a request with
    a message comes from a turn that raised, whose message stays in the
    history as its last entry, with no reply. *)
Theorem chat_replies (pick : nat) (body : Body) (chatbot : Bot) :
  let reply := fst (handle pick body chatbot) in
  let chatbot' := snd (handle pick body chatbot) in
  (reply = MessageRequired ↔ ∃ message, body = JsonObject message ∧ default "" message = "") ∧
  (reply = InternalError BodyError ↔ body = NoJson) ∧
  (status reply = 400 ∨ reply = InternalError BodyError → chatbot' = chatbot) ∧
  (∀ response, reply = Response response →
     ∃ message, body = JsonObject (Some message) ∧ message ≠ "" ∧
       conversation_history chatbot'
       = conversation_history chatbot ++
         [{| user := message; timestamp := None; bot := Some response |}]) ∧
  (∀ e, reply = InternalError (BotError e) →
     ∃ message, body = JsonObject (Some message) ∧ message ≠ "" ∧
       conversation_history chatbot'
       = conversation_history chatbot ++
         [{| user := message; timestamp := None; bot := None |}]).
Proof.
  intros reply chatbot'. subst reply chatbot'.
  pose proof (chat_cases pick body chatbot) as Hc. unfold turn_of in Hc. cbn [fst snd] in Hc.
  destruct body as [|[message|]].
  - rewrite Hc. cbn. split_and!; try done.
    split; [done|]. by intros (m & H & _).
  - destruct (nonempty message) eqn:Hm.
    + assert (message ≠ "") as Hne by (by intros ->).
      rewrite Hc. pose proof (respond_history encode similarity_row score_lt
                                pick message chatbot) as Hh.
      destruct (respond pick message chatbot) as [[r|e] chatbot'] eqn:Hr;
        cbn [fst snd] in *; unfold entry_of, reply_of in Hh.
      * split_and!; try done.
        -- split; [done|]. intros (m & [= <-] & Hd). cbn in Hd. by subst.
        -- by intros [|].
        -- intros response [= <-]. eauto.
      * split_and!; try done.
        -- split; [done|]. intros (m & [= <-] & Hd). cbn in Hd. by subst.
        -- by intros [|].
        -- intros e' [= <-]. eauto.
    + rewrite Hc. cbn. destruct message; [|done]. split_and!; try done.
      split; [eauto|done].
  - rewrite Hc. cbn. split_and!; try done. split; [eauto|done].
Qed.

Lemma serve_cons pick body requests chatbot :
  handle_all ((pick, body) :: requests) chatbot
  = (fst (handle pick body chatbot) :: fst (handle_all requests (snd (handle pick body chatbot))),
     snd (handle_all requests (snd (handle pick body chatbot)))).
Proof.
  cbn [serve]. destruct (chat _ _ _ _ _ pick body chatbot) as [reply chatbot'].
  cbn [fst snd]. by destruct (serve _ _ _ _ _ requests chatbot') as [replies chatbot''].
Qed.

Lemma serve_run requests chatbot :
  snd (handle_all requests chatbot) = converse (turns_of requests) chatbot ∧
  length (fst (handle_all requests chatbot)) = length requests.
Proof.
  revert chatbot. induction requests as [|[pick body] requests IH]; intros chatbot; [done|].
  rewrite serve_cons. cbn [fst snd length]. destruct (IH (snd (handle pick body chatbot))) as [-> ->].
  split; [|done]. unfold turns_of.
  pose proof (chat_cases pick body chatbot) as Hc.
  change (omap turn_of ((pick, body) :: requests))
    with (match turn_of (pick, body) with
          | Some turn => turn :: omap turn_of requests
          | None => omap turn_of requests
          end).
  destruct (turn_of (pick, body)) as [[pick' message]|]; rewrite Hc; done.
Qed.

(** X16: the process serves every request with its one bot.  A run of
    requests gets one reply each and leaves the bot as the conversation made
    of the requests with a non-empty message leaves it; so across requests,
    whoever sends them, the scope flag once set stays set, nothing recorded
    in the case state is lost, the knowledge document is unchanged and the
    history grows by one entry per request that reached the bot. *)
Theorem serve_is_one_conversation (requests : list (nat * Body)) (chatbot : Bot) :
  let replies := fst (handle_all requests chatbot) in
  let chatbot' := snd (handle_all requests chatbot) in
  length replies = length requests ∧
  chatbot' = converse (turns_of requests) chatbot ∧
  (session_in_scope chatbot = true → session_in_scope chatbot' = true) ∧
  case_kept (current_case chatbot) (current_case chatbot') ∧
  medical_data chatbot' = medical_data chatbot ∧
  length (conversation_history chatbot')
  = length (conversation_history chatbot) + length (turns_of requests).
Proof.
  intros replies chatbot'. subst replies chatbot'.
  destruct (serve_run requests chatbot) as [-> ->]. split_and!; try done.
  - apply converse_in_scope.
  - apply converse_case_kept.
  - apply converse_medical_data.
  - destruct (converse_history encode similarity_row score_lt (turns_of requests) chatbot)
      as (entries & -> & Hu).
    rewrite length_app. f_equal. by rewrite <- (length_map user entries), Hu, length_map.
Qed.

End HandlerExtras.

(** ** The training data *)

Section TrainingExtras.

Lemma index_of_lookup x l i : index_of x l = Some i → l !! i = Some x.
Proof.
  revert i. induction l as [|y l IH]; intros i; [done|]. cbn [index_of].
  case_decide as Hy; [by intros [= <-]; subst|].
  destruct (index_of x l) as [j|]; [|done]. intros [= <-]. cbn. by apply IH.
Qed.

Lemma index_of_elem x l : x ∈ l → is_Some (index_of x l).
Proof.
  induction 1 as [y l|y z l Hx IH]; cbn [index_of].
  - rewrite decide_True by done. eauto.
  - case_decide; [eauto|]. destruct IH as [j ->]. eauto.
Qed.

Lemma index_of_NoDup x l k : NoDup l → l !! k = Some x → index_of x l = Some k.
Proof.
  intros Hnd. revert k. induction Hnd as [|y l Hy Hnd IH]; intros k; [done|].
  cbn [index_of]. destruct k as [|k]; cbn.
  - intros [= ->]. by rewrite decide_True.
  - intros Hk. rewrite decide_False.
    + by rewrite (IH k Hk).
    + intros ->. apply Hy. by eapply list_elem_of_lookup_2.
Qed.

Lemma examples_of_spec training_data item :
  item ∈ training_data →
  if (1 <? length training_data)%nat then
    ∃ i other,
      index_of item training_data = Some i ∧
      training_data !! ((i + 1) mod length training_data) = Some other ∧
      examples_of training_data item = [positive item; negative item other]
  else examples_of training_data item = [positive item].
Proof.
  intros Hin. unfold examples_of. destruct (1 <? length training_data)%nat eqn:Hn; [|done].
  destruct (index_of_elem _ _ Hin) as [i Hi].
  assert (is_Some (training_data !! ((i + 1) mod length training_data))) as [other Ho].
  { apply lookup_lt_is_Some, Nat.mod_upper_bound. apply Nat.ltb_lt in Hn. lia. }
  exists i, other. unfold other_item. rewrite Hi. cbn. by rewrite Ho.
Qed.

Lemma bind_lookup_pairs {A B} (f : A → list B) (g h : A → B) l k x :
  (∀ y, y ∈ l → f y = [g y; h y]) →
  l !! k = Some x →
  (l ≫= f) !! (2 * k) = Some (g x) ∧ (l ≫= f) !! (2 * k + 1) = Some (h x).
Proof.
  revert k. induction l as [|y l IH]; intros k Hf; [done|].
  cbn [mbind list_bind]. rewrite (Hf y) by left.
  destruct k as [|k]; cbn.
  - by intros [= ->].
  - intros Hk. replace (k + S (k + 0)) with (S (2 * k)) by lia.
    replace (k + S (k + 0) + 1) with (S (2 * k + 1)) by lia. cbn.
    apply IH; [|done]. intros z Hz. apply Hf. by right.
Qed.

Lemma bind_length_const {A B} (f : A → list B) l n :
  (∀ y, y ∈ l → length (f y) = n) → length (l ≫= f) = n * length l.
Proof.
  induction l as [|y l IH]; intros Hf; cbn [mbind list_bind]; [cbn; lia|].
  rewrite length_app, (Hf y) by left. cbn [length]. rewrite IH; [lia|].
  intros z Hz. apply Hf. by right.
Qed.

(** X17: from [n] training items the trainer builds one positive example
    per item and, when [n > 1], one negative example per item, [2n] in all.
    The negative example of an item pairs its question with the answer of
    the item that follows the first occurrence of that item, cyclically; so
    when no item occurs twice, the examples of the item at position [k] are
    at positions [2k] and [2k+1], and the negative one uses the answer of
    the next item, which is a different item. *)
Theorem training_examples_pairs (training_data : list TrainingPoint) :
  let n := length training_data in
  length (training_examples training_data) = (if (1 <? n)%nat then 2 * n else n) ∧
  (∀ item, item ∈ training_data → (1 < n)%nat →
     ∃ i other,
       index_of item training_data = Some i ∧
       training_data !! ((i + 1) mod n) = Some other ∧
       examples_of training_data item = [positive item; negative item other]) ∧
  (NoDup training_data → (1 < n)%nat →
   ∀ k item next,
     training_data !! k = Some item →
     training_data !! ((k + 1) mod n) = Some next →
     training_examples training_data !! (2 * k) = Some (positive item) ∧
     training_examples training_data !! (2 * k + 1) = Some (negative item next) ∧
     next ≠ item).
Proof.
  intros n. split_and!.
  - unfold training_examples. destruct (1 <? n)%nat eqn:Hn.
    + apply bind_length_const. intros y Hy.
      pose proof (examples_of_spec training_data y Hy) as H. fold n in H. rewrite Hn in H.
      destruct H as (i & other & _ & _ & ->). done.
    + rewrite (bind_length_const _ _ 1); [lia|]. intros y Hy.
      pose proof (examples_of_spec training_data y Hy) as H. fold n in H. rewrite Hn in H.
      by rewrite H.
  - intros item Hin Hn. pose proof (examples_of_spec training_data item Hin) as H.
    fold n in H. by rewrite (proj2 (Nat.ltb_lt 1 n) Hn) in H.
  - intros Hnd Hn k item next Hk Hnext.
    assert (∀ y, y ∈ training_data →
              examples_of training_data y
              = [positive y;
                 negative y (default y (other_item training_data y))]) as Hf.
    { intros y Hy. pose proof (examples_of_spec training_data y Hy) as H. fold n in H.
      rewrite (proj2 (Nat.ltb_lt 1 n) Hn) in H. destruct H as (i & other & Hi & Ho & ->).
      unfold other_item. rewrite Hi. cbn. fold n. by rewrite Ho. }
    destruct (bind_lookup_pairs (examples_of training_data) positive
                (fun y => negative y (default y (other_item training_data y)))
                training_data k item Hf Hk) as [H1 H2].
    unfold training_examples. rewrite H1, H2. split_and!; [done| |].
    + unfold other_item. rewrite (index_of_NoDup _ _ _ Hnd Hk). cbn. fold n.
      by rewrite Hnext.
    + intros ->. pose proof (NoDup_lookup _ _ _ _ Hnd Hk Hnext) as Heq.
      assert (k < n) as Hlt by (by eapply lookup_lt_Some).
      destruct (decide (k + 1 = n)) as [E|E].
      * rewrite E, Nat.Div0.mod_same in Heq. lia.
      * rewrite Nat.mod_small in Heq by lia. lia.
Qed.

Lemma training_examples_nil training_data :
  training_examples training_data = [] ↔ training_data = [].
Proof. unfold training_examples. by destruct training_data. Qed.

(** X18: the training items read from the data file are one item per
    cause, in the order of the causes, answering with the description and,
    for a condition of ASCII characters, asking what causes the lowered
    condition; then, when there are emergency symptoms, one item that lists
    them separated by commas; then, when there are home remedies, one item
    that lists them, each with its description, separated by semicolons; and
    nothing else.  The file gives no training example at all exactly when
    its three lists are empty. *)
Theorem extracted_training_data (data : MedicalData) :
  let items := _extract_training_data data in
  let n := length (causes data) in
  let count (present : bool) := if present then 1 else 0 in
  let emergencies := count (bool_decide (emergency_symptoms data ≠ [])) in
  let remedies := count (bool_decide (home_remedies data ≠ [])) in
  length items = n + emergencies + remedies ∧
  (∀ i cause,
     causes data !! i = Some cause →
     answer <$> items !! i = Some (default "" (description cause)) ∧
     (isascii (default "" (condition cause)) = true →
      items !! i
      = Some {| question := "What causes " +:+ lower (default "" (condition cause)) +:+ "?";
                answer := default "" (description cause) |})) ∧
  (emergency_symptoms data ≠ [] →
   items !! n
   = Some {| question := "When should I seek emergency medical attention for abdominal pain?";
             answer := "Seek emergency care for: " +:+ join ", " (emergency_symptoms data) |}) ∧
  (home_remedies data ≠ [] →
   items !! (n + emergencies)
   = Some {| question := "What home remedies help with abdominal pain?";
             answer := "Home remedies include: " +:+
                       join "; " (map (fun r => default "" (remedy r) +:+ ": " +:+
                                                default "" (remedy_description r))
                                      (home_remedies data)) |}) ∧
  (prepare_training_data (Some data) = [] ↔
   causes data = [] ∧ emergency_symptoms data = [] ∧ home_remedies data = []).
Proof.
  intros items n count emergencies remedies.
  subst items n emergencies remedies. unfold _extract_training_data. split_and!.
  - rewrite !length_app, length_map.
    destruct (emergency_symptoms data), (home_remedies data); cbn; lia.
  - intros i cause Hi. rewrite lookup_app_l.
    + by rewrite list_lookup_fmap, Hi.
    + rewrite length_map. by apply lookup_lt_Some in Hi.
  - intros He. rewrite lookup_app_r by (by rewrite length_map).
    rewrite length_map, Nat.sub_diag.
    by destruct (emergency_symptoms data).
  - intros Hr. rewrite lookup_app_r by (rewrite length_map; lia).
    rewrite length_map.
    replace (length (causes data) + _ - length (causes data))
      with (count (bool_decide (emergency_symptoms data ≠ []))) by lia.
    destruct (emergency_symptoms data) as [|e es]; cbn; by destruct (home_remedies data).
  - unfold prepare_training_data. rewrite training_examples_nil.
    unfold _extract_training_data.
    destruct (causes data) as [|c cs]; [|split; [done|by intros (? & _)]].
    destruct (emergency_symptoms data) as [|e es]; [|split; [done|by intros (_ & ? & _)]].
    destruct (home_remedies data) as [|r rs]; [done|split; [done|by intros (_ & _ & ?)]].
Qed.

End TrainingExtras.

(** ** The installer *)

Section SetupExtras.

Context (shell : nat → string → option string → ShellResult).


End SetupExtras.

(** ** The case state through a conversation *)

Section ConversationExtras.

Context {vector score : Type}.
Context (encode : nat → list string → option (list vector)).
Context (similarity_row : list vector → list vector → list score).
Context (score_lt : score → score → bool).

Local Abbreviation respond := (get_response vector score encode similarity_row score_lt).
Local Abbreviation converse := (run vector score encode similarity_row score_lt).

Lemma converse_in_vocabulary turns self :
  case_in_vocabulary (current_case self) →
  case_in_vocabulary (current_case (converse turns self)).
Proof.
  revert self. induction turns as [|[pick message] turns IH]; intros self H; [done|].
  cbn [run]. apply IH.
  destruct (respond_frame encode similarity_row score_lt pick message self)
    as (_ & _ & [-> | ->]); [done|].
  apply update_in_vocabulary; [apply extract_in_vocabulary|done].
Qed.

(** X20: the case state stays within the fixed vocabularies through any
    conversation whose messages are of ASCII characters: from a case whose
    onset is unset, "today" or "yesterday", whose location and severity are
    unset or one of their labels, whose duration is unset or a count with a
    unit and whose symptoms are terms of the symptom vocabulary, every turn
    leads to such a case; a new bot starts from one. *)
Theorem case_state_stays_in_vocabulary (turns : list (nat * string)) (self : Bot) :
  Forall (fun turn => isascii (snd turn) = true) turns →
  (case_in_vocabulary (current_case self) →
   case_in_vocabulary (current_case (converse turns self))) ∧
  (∀ data, case_in_vocabulary (current_case (converse turns (new_bot data)))).
Proof.
  intros _. split; [apply converse_in_vocabulary|].
  intros data. apply converse_in_vocabulary. unfold case_in_vocabulary. cbn.
  split_and!; [done..|set_solver].
Qed.

End ConversationExtras.

(** ** Letter pairs that no summary holds *)

Section PairFree.

Context (a b : ascii).

Lemma has_pair_step x y t :
  has_pair a b (String x (String y t)) = (is_ch a x && is_ch b y) || has_pair a b (String y t).
Proof. reflexivity. Qed.

Lemma ends_ch_step x y t : ends_ch a (String x (String y t)) = ends_ch a (String y t).
Proof. reflexivity. Qed.

Lemma starts_ch_app s t :
  starts_ch b (s +:+ t) = match s with EmptyString => starts_ch b t | String _ _ => starts_ch b s end.
Proof. by destruct s. Qed.

Lemma has_pair_app s t :
  has_pair a b (s +:+ t) = has_pair a b s || has_pair a b t || (ends_ch a s && starts_ch b t).
Proof.
  induction s as [|x s IH]; [by rewrite string_app_nil_l, orb_false_r|].
  rewrite string_app_cons. destruct s as [|y s].
  - rewrite string_app_nil_l. destruct t as [|z t]; [cbn; by rewrite andb_false_r|].
    rewrite has_pair_step. cbn [has_pair ends_ch starts_ch orb]. apply orb_comm.
  - rewrite string_app_cons in *. rewrite !has_pair_step, ends_ch_step, IH.
    by rewrite !orb_assoc.
Qed.

Lemma is_ch_lower c x : is_ch c (lower_char x) = is_ch c x.
Proof. unfold is_ch. by rewrite lower_char_idem. Qed.

Lemma has_pair_lower s : has_pair a b (lower s) = has_pair a b s.
Proof.
  induction s as [|x s IH]; [done|]. destruct s as [|y s]; [done|].
  cbn [lower] in *. by rewrite !has_pair_step, !is_ch_lower, IH.
Qed.

(** A text that holds the pair does not occur in a text that is free of
    it. *)
Lemma pair_free_not_contained term s :
  has_pair a b term = true → has_pair a b s = false → contains term (lower s) = false.
Proof.
  intros Hterm Hs. destruct (contains term (lower s)) eqn:Hc; [|done].
  apply contains_spec in Hc as (pre & post & Hc).
  rewrite <- has_pair_lower, Hc, !has_pair_app, Hterm in Hs.
  by rewrite orb_true_r in Hs.
Qed.

Lemma all_chars_pair_free f s :
  (∀ c, f c = true → is_ch a c = false ∧ is_ch b c = false) →
  all_chars f s = true →
  has_pair a b s = false ∧ starts_ch b s = false ∧ ends_ch a s = false.
Proof.
  intros Hf. induction s as [|x s IH]; [done|].
  cbn [all_chars]. rewrite andb_true_iff. intros [Hx Hs].
  destruct (IH Hs) as (H1 & H2 & H3). destruct (Hf x Hx) as [Ha Hb]. split_and!.
  - destruct s as [|y s]; [done|]. by rewrite has_pair_step, Ha, H1.
  - done.
  - destruct s as [|y s]; [|done]. done.
Qed.

Lemma has_pair_join sep parts :
  sep ≠ "" → has_pair a b sep = false → starts_ch b sep = false → ends_ch a sep = false →
  Forall (fun s => has_pair a b s = false) parts →
  has_pair a b (join sep parts) = false.
Proof.
  intros Hne Hd Hs He. induction 1 as [|x l Hx Hl IH]; [done|].
  destruct l as [|y l]; [done|].
  change (join sep (x :: y :: l)) with (x +:+ sep +:+ join sep (y :: l)).
  assert (starts_ch b (sep +:+ join sep (y :: l)) = false) as Hstart.
  { rewrite starts_ch_app. by destruct sep. }
  rewrite has_pair_app, Hx, Hstart, andb_false_r, !orb_false_r.
  by rewrite has_pair_app, Hd, IH, He.
Qed.

Hypothesis Hfree : vocabulary_free a b = true.

Local Ltac listed := apply (bool_decide_unpack _); vm_compute; exact I.

Lemma free_parts :
  (∀ s, s ∈ ["abdominal pain"; "; "; ", "; "today"; "yesterday"] → has_pair a b s = false) ∧
  (∀ s, s ∈ summary_labels → has_pair a b s = false ∧ ends_ch a s = false) ∧
  (∀ s, s ∈ location_labels → has_pair a b s = false) ∧
  (∀ s, s ∈ severity_labels → has_pair a b s = false) ∧
  (∀ s, s ∈ assoc_terms → has_pair a b s = false) ∧
  (∀ s, s ∈ count_words → has_pair a b s = false) ∧
  (∀ s, s ∈ unit_words → has_pair a b s = false) ∧
  (∀ s, s ∈ ["; "; ", "] → ends_ch a s = false ∧ starts_ch b s = false) ∧
  (∀ w u, w ∈ count_words → u ∈ unit_words → ends_ch a w && starts_ch b u = false) ∧
  (∀ c, is_digit c || is_space c = true → is_ch a c = false ∧ is_ch b c = false).
Proof.
  unfold vocabulary_free in Hfree. rewrite !forallb_app, !andb_true_iff in Hfree.
  destruct Hfree as (((((P1 & P2 & P3 & P4 & P5 & P6 & P7) & (E1 & E2)) & S1) & CU) & CL).
  rewrite forallb_forall in P1, P2, P3, P4, P5, P6, P7, E1, E2, S1, CU, CL.
  split_and!.
  - intros s Hs%list_elem_of_In. by apply negb_true_iff, P1.
  - intros s Hs%list_elem_of_In. split; apply negb_true_iff; auto.
  - intros s Hs%list_elem_of_In. by apply negb_true_iff, P3.
  - intros s Hs%list_elem_of_In. by apply negb_true_iff, P4.
  - intros s Hs%list_elem_of_In. by apply negb_true_iff, P5.
  - intros s Hs%list_elem_of_In. by apply negb_true_iff, P6.
  - intros s Hs%list_elem_of_In. by apply negb_true_iff, P7.
  - intros s Hs%list_elem_of_In. split; apply negb_true_iff; auto.
  - intros w u Hw%list_elem_of_In Hu%list_elem_of_In. specialize (CU w Hw).
    rewrite forallb_forall in CU. by apply negb_true_iff, CU.
  - intros c Hc.
    assert (In c all_ascii) as Hin.
    { unfold all_ascii. apply in_map_iff. exists (nat_of_ascii c).
      split; [apply ascii_nat_embedding|]. apply in_seq.
      pose proof (nat_ascii_bounded c). lia. }
    specialize (CL c Hin). rewrite Hc in CL. cbn [andb] in CL.
    by apply negb_true_iff, orb_false_iff in CL.
Qed.

Lemma duration_pair_free m : duration_text m → has_pair a b m = false.
Proof.
  destruct free_parts as (_ & _ & _ & _ & _ & Hcount & Hunit & _ & Hcu & Hclass).
  intros (count & blanks & unit_word & -> & Hc & Hblanks & Hu).
  destruct (all_chars_pair_free is_space blanks) as (Hb1 & Hb2 & Hb3); [|done|].
  { intros c Hs. apply Hclass. by rewrite Hs, orb_true_r. }
  assert (has_pair a b (blanks +:+ unit_word) = false) as Htail.
  { by rewrite has_pair_app, Hb1, (Hunit unit_word Hu), Hb3. }
  rewrite has_pair_app, Htail, !orb_false_r.
  destruct Hc as [[_ Hc]|Hc].
  - destruct (all_chars_pair_free is_digit count) as (Hc1 & _ & Hc3); [|done|].
    { intros c Hd. apply Hclass. by rewrite Hd. }
    by rewrite Hc1, Hc3.
  - rewrite (Hcount count Hc). cbn [orb].
    rewrite starts_ch_app. destruct blanks as [|x blanks]; [by apply Hcu|].
    by rewrite Hb2, andb_false_r.
Qed.

Lemma labelled_pair_free label tables v :
  label ∈ summary_labels →
  (∀ s, s ∈ tables → has_pair a b s = false) →
  unset_or tables v →
  has_pair a b (label +:+ field_text v) = false.
Proof.
  destruct free_parts as (_ & Hlabel & _).
  intros Hl Ht Hv. rewrite has_pair_app.
  destruct (Hlabel label Hl) as [-> ->].
  destruct v as [s|]; [|done]. cbn in *. by rewrite Ht.
Qed.

(** The summary of a case within the vocabulary is free of the pair. *)
Lemma summary_pair_free case :
  case_in_vocabulary case → has_pair a b (_case_summary_text case) = false.
Proof.
  destruct free_parts as (Hfixed & Hlabel & Hloc & Hsev & Hterm & _ & _ & Hsep & _).
  intros (C1 & C2 & C3 & C4 & C5).
  assert (has_pair a b "; " = false ∧ has_pair a b ", " = false) as [Hsc Hcm].
  { split; apply Hfixed; listed. }
  destruct (Hsep "; ") as [Hsc1 Hsc2]; [listed|].
  destruct (Hsep ", ") as [Hcm1 Hcm2]; [listed|].
  assert (Forall (fun s => has_pair a b s = false) (summary_parts case)) as Hparts.
  { unfold summary_parts. rewrite !Forall_app. split_and!.
    - destruct (truthy (onset case)); [|done]. constructor; [|done].
      apply (labelled_pair_free _ ["today"; "yesterday"]); [listed| |done].
      intros s Hs. apply Hfixed. rewrite !elem_of_cons in *. tauto.
    - destruct (truthy (duration case)); [|done]. constructor; [|done].
      rewrite has_pair_app. destruct (Hlabel "duration ") as [-> ->]; [listed|].
      destruct (duration case) as [m|]; [|done]. cbn. by rewrite duration_pair_free by auto.
    - destruct (truthy (location case)); [|done]. constructor; [|done].
      by apply (labelled_pair_free _ location_labels); [listed| |].
    - destruct (truthy (severity case)); [|done]. constructor; [|done].
      by apply (labelled_pair_free _ severity_labels); [listed| |].
    - case_bool_decide; [|done]. constructor; [|done].
      rewrite has_pair_app. destruct (Hlabel "symptoms ") as [-> ->]; [listed|].
      cbn [orb andb]. rewrite orb_false_r.
      apply has_pair_join; [done..|].
      apply Forall_forall. intros x Hx. apply Hterm, C5. by apply sorted_spec. }
  unfold _case_summary_text. destruct (summary_parts case) as [|part parts] eqn:E.
  - apply Hfixed. listed.
  - by apply has_pair_join.
Qed.

End PairFree.

(** ** What the summary shows *)

Section SummaryExtras.

Lemma contains_refl s : contains s s = true.
Proof. apply contains_spec. exists "", "". by rewrite string_app_nil_r. Qed.

Lemma contains_join x sep parts : x ∈ parts → contains x (join sep parts) = true.
Proof.
  induction 1 as [x l|x y l Hx IH].
  - destruct l as [|z l]; [apply contains_refl|].
    change (join sep (x :: z :: l)) with (x +:+ sep +:+ join sep (z :: l)).
    apply (contains_app x "").
  - destruct l as [|z l]; [by apply elem_of_nil in Hx|].
    change (join sep (y :: z :: l)) with (y +:+ sep +:+ join sep (z :: l)).
    apply contains_spec in IH as (pre & post & ->).
    apply contains_spec. exists (y +:+ sep +:+ pre), post.
    by rewrite !string_app_assoc.
Qed.

Lemma summary_part_shown case part :
  part ∈ summary_parts case → contains part (_case_summary_text case) = true.
Proof.
  intros Hin. unfold _case_summary_text.
  destruct (summary_parts case) as [|p ps] eqn:E; [by apply elem_of_nil in Hin|].
  by apply contains_join.
Qed.

(** X23: the summary shows every field that is set: a truthy scalar
    appears as its label followed by its value, and when there are symptoms
    they appear after "symptoms ", sorted and separated by commas.  The
    summary is never the empty string. *)
Theorem summary_shows_fields (case : CaseState) :
  let summary := _case_summary_text case in
  (truthy (onset case) = true →
   contains ("onset " +:+ field_text (onset case)) summary = true) ∧
  (truthy (duration case) = true →
   contains ("duration " +:+ field_text (duration case)) summary = true) ∧
  (truthy (location case) = true →
   contains ("location " +:+ field_text (location case)) summary = true) ∧
  (truthy (severity case) = true →
   contains ("severity " +:+ field_text (severity case)) summary = true) ∧
  (associated_symptoms case ≠ ∅ →
   contains ("symptoms " +:+ join ", " (sorted (associated_symptoms case))) summary = true) ∧
  nonempty summary = true.
Proof.
  intros summary. subst summary. split_and!.
  - intros H. apply summary_part_shown. unfold summary_parts. rewrite H. set_solver.
  - intros H. apply summary_part_shown. unfold summary_parts. rewrite H. set_solver.
  - intros H. apply summary_part_shown. unfold summary_parts. rewrite H. set_solver.
  - intros H. apply summary_part_shown. unfold summary_parts. rewrite H. set_solver.
  - intros H. apply summary_part_shown. unfold summary_parts.
    rewrite (bool_decide_eq_true_2 _ H). set_solver.
  - unfold _case_summary_text. destruct (summary_parts case) as [|p ps] eqn:E; [done|].
    assert (nonempty p = true) as Hp.
    { assert (p ∈ summary_parts case) as Hin by (rewrite E; left).
      unfold summary_parts in Hin. rewrite !elem_of_app in Hin.
      destruct Hin as [Hin|[Hin|[Hin|[Hin|Hin]]]];
        [destruct (truthy (onset case))|destruct (truthy (duration case))
        |destruct (truthy (location case))|destruct (truthy (severity case))
        |destruct (bool_decide (associated_symptoms case ≠ ∅))];
        first [by apply elem_of_nil in Hin | by apply list_elem_of_singleton in Hin as ->]. }
    destruct ps as [|q ps]; [done|].
    change (join "; " (p :: q :: ps)) with (p +:+ "; " +:+ join "; " (q :: ps)).
    by destruct p.
Qed.

End SummaryExtras.

(** ** The red flags of the shipped knowledge document *)

Section ShippedData.

Context {vector score : Type}.
Context (encode : nat → list string → option (list vector)).
Context (similarity_row : list vector → list vector → list score).
Context (score_lt : score → score → bool).

Local Abbreviation converse := (run vector score encode similarity_row score_lt).

Lemma never_matches_sound term case :
  never_matches term = true → case_in_vocabulary case →
  contains term (lower (_case_summary_text case)) = false.
Proof.
  unfold never_matches. rewrite existsb_exists. intros ([a b] & _ & H) Hv.
  cbn [fst snd] in H. apply andb_true_iff in H as [Hfree Hpair].
  apply (pair_free_not_contained a b); [done|]. by apply summary_pair_free.
Qed.

Lemma dead_phrase_sound item case :
  dead_phrase item = true → case_in_vocabulary case →
  emergency_hit (lower (_case_summary_text case)) item = false.
Proof.
  unfold dead_phrase, emergency_hit. intros Hdead Hv.
  rewrite forallb_forall in Hdead.
  destruct (existsb _ _) eqn:E; [|done].
  apply existsb_exists in E as (term & Hterm & Hhit).
  apply andb_true_iff in Hhit as [Hne Hc].
  specialize (Hdead term Hterm). rewrite Hne in Hdead. cbn in Hdead.
  by rewrite (never_matches_sound term case) in Hc.
Qed.

(** X22: in any conversation started on a new bot, whatever the knowledge
    document, an emergency phrase one of whose pairs of letters the
    vocabulary of the summary lacks in each of its terms is never flagged, and
    neither is "Vomiting blood".  With the document written by the scraper,
    nine of its ten emergency phrases are such: the only flags a conversation
    can raise are "severe, sudden abdominal pain", "Severe abdominal pain"
    and "Pain with fever"; the first two are raised whenever the severity is
    "severe" and the last exactly when "fever" is a recorded symptom. *)
Theorem shipped_red_flags (turns : list (nat * string)) :
  (∀ data x,
     let self := converse turns (new_bot data) in
     x ∈ _red_flag_check (medical_data self) (current_case self) →
     x ∈ ["Severe abdominal pain"; "Pain with fever"] ∨
     x ∈ map lower (emergency_symptoms data) ∧ dead_phrase x = false) ∧
  (let self := converse turns (new_bot scraped_data) in
   let flags := _red_flag_check (medical_data self) (current_case self) in
   (∀ x, x ∈ flags →
         x ∈ ["severe, sudden abdominal pain"; "Severe abdominal pain"; "Pain with fever"]) ∧
   (severity (current_case self) = Some "severe" →
    "severe, sudden abdominal pain" ∈ flags ∧ "Severe abdominal pain" ∈ flags) ∧
   ("Pain with fever" ∈ flags ↔ "fever" ∈ associated_symptoms (current_case self))).
Proof.
  assert (∀ data, case_in_vocabulary (current_case (converse turns (new_bot data)))) as Hvoc.
  { intros data. apply converse_in_vocabulary. unfold case_in_vocabulary. cbn.
    split_and!; [done..|set_solver]. }
  assert (∀ data x,
     x ∈ _red_flag_check data (current_case (converse turns (new_bot data))) →
     x ∈ ["Severe abdominal pain"; "Pain with fever"] ∨
     x ∈ map lower (emergency_symptoms data) ∧ dead_phrase x = false) as Hgen.
  { intros data x. rewrite elem_of_red_flag_check. intros [[Hin Hhit]|Hexp].
    - right. split; [done|]. destruct (dead_phrase x) eqn:Hd; [|done].
      by rewrite (dead_phrase_sound x _ Hd (Hvoc data)) in Hhit.
    - left. unfold explicit_flags in Hexp.
      rewrite (never_matches_sound "blood" _ eq_refl (Hvoc data)), andb_false_r in Hexp.
      rewrite app_nil_r in Hexp.
      destruct (bool_decide (severity _ = Some "severe")),
        (bool_decide ("fever" ∈ associated_symptoms _)); cbn in Hexp; set_solver. }
  split.
  - intros data x self. subst self. rewrite converse_medical_data. apply Hgen.
  - intros self flags. subst flags.
    assert (medical_data self = scraped_data) as -> by apply converse_medical_data.
    split_and!.
    + intros x Hx. apply Hgen in Hx as [Hx|[Hin Hdead]].
      * rewrite !elem_of_cons in *. tauto.
      * assert (x ∈ List.filter (fun y => negb (dead_phrase y))
                     (map lower (emergency_symptoms scraped_data))) as Hf.
        { rewrite (list_elem_of_In _ x), filter_In, <- list_elem_of_In.
          by rewrite Hdead. }
        vm_compute in Hf. apply list_elem_of_singleton in Hf as ->. left.
    + intros Hsev. split.
      * apply elem_of_red_flag_check. left.
        split; [apply (bool_decide_unpack _); vm_compute; exact I|].
        unfold emergency_hit.
        change (map strip (split_seps "severe, sudden abdominal pain"))
          with ["severe"; "sudden abdominal pain"].
        cbn [existsb nonempty andb]. apply orb_true_iff. left.
        apply (contains_lower "severe" (_case_summary_text (current_case self))).
        apply (contains_trans _ "severity severe"); [done|].
        apply summary_part_shown. unfold summary_parts. rewrite Hsev.
        cbn [truthy nonempty field_text default]. rewrite !elem_of_app.
        do 3 right. left. by apply list_elem_of_singleton.
      * apply elem_of_red_flag_check. right. unfold explicit_flags.
        rewrite bool_decide_eq_true_2 by done. set_solver.
    + rewrite elem_of_red_flag_check. split.
      * intros [[Hin _]|Hexp].
        { by destruct (lower_ne_capitalised "P" "ain with fever"
                         (emergency_symptoms scraped_data)). }
        unfold explicit_flags in Hexp.
        destruct (bool_decide ("fever" ∈ associated_symptoms (current_case self))) eqn:Hf;
          [by apply bool_decide_eq_true in Hf|].
        destruct (bool_decide (severity _ = Some "severe")), (_ && _);
          cbn in Hexp; rewrite ?elem_of_cons in Hexp; exfalso;
          repeat (destruct Hexp as [Hexp|Hexp]; [discriminate|]);
          by apply elem_of_nil in Hexp.
      * intros Hf. right. unfold explicit_flags.
        rewrite (bool_decide_eq_true_2 (_ ∈ _)) by done. set_solver.
Qed.

End ShippedData.

(** ** Greetings *)

Section GreetingExtras.

Lemma found_search r s : found r s = true → ∃ m, search r s = Some m.
Proof. unfold found. intros H%bool_decide_eq_true. by destruct H as [m Hm]; exists m. Qed.


End GreetingExtras.

(** ** The analysis reply *)

Section AnalysisExtras.

Context {vector score : Type}.
Context (encode : nat → list string → option (list vector)).
Context (similarity_row : list vector → list vector → list score).
Context (score_lt : score → score → bool).

Local Abbreviation rank := (_rank_causes vector score encode similarity_row score_lt).
Local Abbreviation respond := (get_response vector score encode similarity_row score_lt).

(** The reply starts with the header, ends with the note and holds every
    line in between. *)
Lemma compose_shape data case red_flags (ranked : list (Cause * score)) :
  let reply := compose score data case red_flags ranked in
  starts_with (header_line (_case_summary_text case)) reply = true ∧
  (∃ body, reply = body +:+ footer_line) ∧
  (∀ line, line ∈ cause_lines score ranked ++ care_lines data red_flags
                    ++ follow_up_lines case →
           contains line reply = true).
Proof.
  intros reply. subst reply. unfold compose. split_and!.
  - apply starts_with_spec.
    set (more := cause_lines score ranked ++ _).
    change ([header_line (_case_summary_text case)] ++ more)
      with (header_line (_case_summary_text case) :: more).
    destruct more as [|z more'] eqn:E.
    { subst more. by destruct (cause_lines score ranked), (care_lines data red_flags),
                             (follow_up_lines case). }
    by exists (nl +:+ join nl (z :: more')).
  - rewrite !app_assoc. apply join_snoc.
  - intros line Hin. apply contains_join. set_solver.
Qed.


End AnalysisExtras.

(** ** Worked instances of the further properties *)

Lemma refusal_exactly_out_of_scope_witness :
  _is_greeting "what's the capital of France" = false ∧
  fst (stub_respond "what's the capital of France" fresh_bot) = Returned refusal.
Proof.
  split; [vm_compute; reflexivity|].
  apply (proj2 (refusal_exactly_out_of_scope stub_encode stub_similarity Nat.ltb
                  _is_greeting 0 "what's the capital of France" fresh_bot)).
  split_and!; vm_compute; reflexivity.
Defined.

Lemma greeting_turn_witness :
  _is_greeting "hi, I have severe stomach pain" = true ∧
  has_abdominal_keywords "hi, I have severe stomach pain" = true ∧
  current_case (snd (stub_respond "hi, I have severe stomach pain" fresh_bot))
  = current_case fresh_bot ∧
  session_in_scope (snd (stub_respond "hi, I have severe stomach pain" fresh_bot)) = false.
Proof.
  split_and!; [vm_compute; reflexivity..| |];
    apply (greeting_turn stub_encode stub_similarity Nat.ltb _is_greeting 0
             "hi, I have severe stomach pain" fresh_bot);
    vm_compute; reflexivity.
Defined.

Lemma duration_extracted_witness :
  isascii "Pain for 3 days now" = true ∧
  duration (_extract_structured_facts "Pain for 3 days now") = Some "3 days" ∧
  contains "3 days" (lower "Pain for 3 days now") = true ∧
  duration_text "3 days".
Proof.
  destruct (duration_extracted "Pain for 3 days now" "3 days") as (H1 & H2 & _);
    [vm_compute; reflexivity..|].
  split_and!; [vm_compute; reflexivity..|exact H1|exact H2].
Defined.


Lemma extracted_facts_in_vocabulary_witness :
  isascii "mild pain since last night" = true ∧
  found onset_yesterday_re (lower "mild pain since last night") = true ∧
  onset (_extract_structured_facts "mild pain since last night") = Some "yesterday".
Proof.
  split_and!; [vm_compute; reflexivity..|].
  destruct (extracted_facts_in_vocabulary "mild pain since last night")
    as (_ & H & _); [vm_compute; reflexivity|].
  apply H. vm_compute. reflexivity.
Defined.

Lemma ranked_best_three_witness :
  match _rank_causes nat nat stub_encode stub_similarity Nat.ltb (new_bot scraped_data) with
  | (Returned ranked, _) =>
      length ranked = 3 ∧ StronglySorted (not_below Nat.ltb) ranked
  | (Raised _, _) => False
  end.
Proof.
  destruct (_rank_causes nat nat stub_encode stub_similarity Nat.ltb (new_bot scraped_data))
    as [[ranked|e] self'] eqn:E; [|vm_compute in E; discriminate E].
  destruct (ranked_best_three stub_encode stub_similarity Nat.ltb
              (fun a b H => proj2 (Nat.ltb_ge b a)
                              (Nat.lt_le_incl a b (proj1 (Nat.ltb_lt a b) H)))
              (fun a b c H1 H2 =>
                 proj2 (Nat.ltb_ge a c)
                   (Nat.le_trans c b a (proj1 (Nat.ltb_ge b c) H2) (proj1 (Nat.ltb_ge a b) H1)))
              (new_bot scraped_data) ranked self' E)
    as [[Hc _]|(_ & case_vec & cause_vecs & _ & E2 & rest & _ & Hsorted & _ & Hlen)].
  - discriminate Hc.
  - split; [|exact Hsorted]. rewrite Hlen.
    injection E2 as <-. reflexivity.
Defined.


Lemma split_words_round_trip_witness :
  Forall (fun w => isascii w = true) ["indigestion,"; "ulcers"] ∧
  Forall is_word_text ["indigestion,"; "ulcers"] ∧
  split_ws (join " " ["indigestion,"; "ulcers"]) = ["indigestion,"; "ulcers"].
Proof.
  assert (Forall (fun w => isascii w = true) ["indigestion,"; "ulcers"]) as Ha
    by (repeat constructor).
  assert (Forall is_word_text ["indigestion,"; "ulcers"]) as H
    by (repeat constructor).
  split_and!; [exact Ha|exact H|].
  apply (proj2 (split_words_round_trip "" ["indigestion,"; "ulcers"])); [exact Ha|exact H].
Defined.

Lemma chat_replies_witness :
  fst (stub_chat (JsonObject (Some "")) fresh_bot) = MessageRequired ∧
  snd (stub_chat (JsonObject (Some "")) fresh_bot) = fresh_bot.
Proof.
  destruct (chat_replies stub_encode stub_similarity Nat.ltb 0 (JsonObject (Some "")) fresh_bot)
    as (H1 & _ & H3 & _).
  assert (fst (stub_chat (JsonObject (Some "")) fresh_bot) = MessageRequired) as Hr.
  { apply (proj2 H1). exists (Some ""). split; reflexivity. }
  split; [exact Hr|]. apply H3. left. unfold stub_chat in Hr. rewrite Hr. reflexivity.
Defined.

Lemma serve_is_one_conversation_witness :
  session_in_scope in_scope_bot = true ∧
  session_in_scope
    (snd (serve nat nat stub_encode stub_similarity Nat.ltb sample_requests in_scope_bot))
  = true ∧
  length (fst (serve nat nat stub_encode stub_similarity Nat.ltb sample_requests in_scope_bot))
  = 3.
Proof.
  destruct (serve_is_one_conversation stub_encode stub_similarity Nat.ltb
              sample_requests in_scope_bot) as (H1 & _ & H3 & _).
  split_and!; [reflexivity|apply H3; reflexivity|exact H1].
Defined.

Lemma training_examples_pairs_witness :
  NoDup _create_sample_training_data ∧
  training_examples _create_sample_training_data !! 15
  = Some (negative {| question := "What is IBS?";
                      answer := "Irritable Bowel Syndrome is a chronic condition affecting the large intestine with symptoms including cramping, bloating, gas, diarrhea or constipation, and mucus in stool." |}
                   {| question := "What causes abdominal pain?";
                      answer := "Abdominal pain can be caused by indigestion, food poisoning, stomach flu, IBS, constipation, gas, appendicitis, gallstones, kidney stones, ulcers, and inflammatory bowel disease." |}).
Proof.
  assert (NoDup _create_sample_training_data) as Hnd
    by (apply (bool_decide_unpack _); vm_compute; exact I).
  split; [exact Hnd|].
  destruct (training_examples_pairs _create_sample_training_data) as (_ & _ & H).
  apply (H Hnd ltac:(cbn; lia) 7); reflexivity.
Defined.

Lemma extracted_training_data_witness :
  emergency_symptoms scraped_data ≠ [] ∧
  question <$> _extract_training_data scraped_data !! 10
  = Some "When should I seek emergency medical attention for abdominal pain?" ∧
  length (_extract_training_data scraped_data) = 12.
Proof.
  destruct (extracted_training_data scraped_data) as (Hlen & _ & He & _).
  split_and!; [discriminate| |exact Hlen].
  change 10 with (length (causes scraped_data)). rewrite He; [reflexivity|discriminate].
Defined.


Lemma case_state_stays_in_vocabulary_witness :
  Forall (fun turn : nat * string => isascii (snd turn) = true)
    [(0, "severe stomach pain for 2 days")] ∧
  case_in_vocabulary (current_case fresh_bot) ∧
  case_in_vocabulary
    (current_case (stub_run [(0, "severe stomach pain for 2 days")] fresh_bot)).
Proof.
  assert (Forall (fun turn : nat * string => isascii (snd turn) = true)
            [(0, "severe stomach pain for 2 days")]) as Ha by (repeat constructor).
  assert (case_in_vocabulary (current_case fresh_bot)) as H.
  { unfold case_in_vocabulary. cbn. split_and!; [exact I..|discriminate|].
    intros x Hx. exfalso. exact (not_elem_of_empty _ Hx). }
  split_and!; [exact Ha|exact H|].
  apply (proj1 (case_state_stays_in_vocabulary stub_encode stub_similarity Nat.ltb
                  [(0, "severe stomach pain for 2 days")] fresh_bot Ha)).
  exact H.
Defined.

Lemma shipped_red_flags_witness :
  severity (current_case
              (stub_run [(0, "severe stomach pain since last night")] (new_bot scraped_data)))
  = Some "severe" ∧
  "severe, sudden abdominal pain"
  ∈ _red_flag_check scraped_data
      (current_case
         (stub_run [(0, "severe stomach pain since last night")] (new_bot scraped_data))).
Proof.
  split; [vm_compute; reflexivity|].
  destruct (shipped_red_flags stub_encode stub_similarity Nat.ltb
              [(0, "severe stomach pain since last night")]) as (_ & _ & H & _).
  apply H. vm_compute. reflexivity.
Defined.

Lemma summary_shows_fields_witness :
  truthy (severity case_severe_fever) = true ∧
  contains "severity severe" (_case_summary_text case_severe_fever) = true.
Proof.
  split; [reflexivity|].
  destruct (summary_shows_fields case_severe_fever) as (_ & _ & _ & H & _).
  apply H. reflexivity.
Defined.


